(** * Issue claim lifecycle of the contribution platform front end

    A shallow embedding of
    - [frontend/src/components/issues/IssueDetailClient.tsx]
      (the handlers [handleClaim], [handleRelease], [handleExtend],
      [handlePRSuccess] and the extend-deadline modal), and
    - [frontend/src/components/issues/CountdownTimer.tsx]
      ([calculateTimeRemaining]),
    together with the result types of [frontend/src/types/ai.ts] and the
    [Issue] interface of [frontend/src/types/dashboard.ts].

    JavaScript objects are finite maps from property names to values, so the
    object spread [{...issue, status: 'claimed'}] is a chain of map inserts.
    A handler is a function from the component state and the outcome of the
    awaited API call to the next state and the list of calls it made; for
    the events of the page it is cut at its [await], so that other events
    come between the request and its answer. *)

From Stdlib Require Import ZArith Lia DecimalString DecimalPos.
From stdpp Require Import gmap strings list fin_maps.

Local Open Scope Z_scope.

(** ** JavaScript values *)

Module JS.

(** A JavaScript string is a sequence of UTF-16 code units; [length] is
    the [.length] property. *)
Abbreviation jsstring := (list N).

(** A string literal of the source (ASCII). *)
Fixpoint lit (s : string) : jsstring :=
  match s with
  | EmptyString => []
  | String a s' => Ascii.N_of_ascii a :: lit s'
  end.

#[global] Arguments lit : simpl never.

(** Numbers.  Only integral values occur in the modelled code (ids, day
    counts, millisecond time stamps); they are kept exact.  [-0] is
    identified with [0]: both are falsy and print the same. *)
Inductive jsnum :=
| NaN
| Num (z : Z).

Inductive jsval :=
| JUndefined
| JNull
| JBool (b : bool)
| JNum (n : jsnum)
| JStr (s : jsstring)
| JRef (a : N).  (* an array or object, known by its identity *)

#[global] Instance jsnum_eq_dec : EqDecision jsnum.
Proof. solve_decision. Defined.

#[global] Instance jsval_eq_dec : EqDecision jsval.
Proof. solve_decision. Defined.

(** ToBoolean on numbers and on values. *)
Definition truthy_num (n : jsnum) : bool :=
  match n with
  | NaN => false
  | Num z => negb (z =? 0)
  end.

Definition truthy (v : jsval) : bool :=
  match v with
  | JUndefined | JNull => false
  | JBool b => b
  | JNum n => truthy_num n
  | JStr s => negb (bool_decide (s = []))
  | JRef _ => true
  end.

(** [a || b] *)
Definition or_num (a b : jsnum) : jsnum := if truthy_num a then a else b.
Definition js_or (a b : jsval) : jsval := if truthy a then a else b.

(** [a === b]: same type and same value; [NaN] differs from itself. *)
Definition num_strict_eq (a b : jsnum) : bool :=
  match a, b with
  | Num x, Num y => x =? y
  | _, _ => false
  end.

Definition strict_eq (a b : jsval) : bool :=
  match a, b with
  | JUndefined, JUndefined => true
  | JNull, JNull => true
  | JBool x, JBool y => bool_decide (x = y)
  | JNum x, JNum y => num_strict_eq x y
  | JStr x, JStr y => bool_decide (x = y)
  | JRef x, JRef y => bool_decide (x = y)
  | _, _ => false
  end.

(** Property read [o.k]: a missing property reads as [undefined]. *)
Definition get (o : gmap string jsval) (k : string) : jsval :=
  default JUndefined (o !! k).

(** A field of type [T | null] is present when it holds a value. *)
Definition present (v : jsval) : bool :=
  match v with
  | JUndefined | JNull => false
  | _ => true
  end.

(** What a rejected promise carries into [catch (err)]. *)
Inductive thrown :=
| ErrorObject (message : jsstring)  (* err instanceof Error *)
| OtherValue.

(** Outcome of an awaited API call. *)
Inductive outcome :=
| Resolved (result : gmap string jsval)
| Rejected (err : thrown).

(** [err instanceof Error ? err.message : fallback] *)
Definition message_or (err : thrown) (fallback : jsstring) : jsstring :=
  match err with
  | ErrorObject m => m
  | OtherValue => fallback
  end.

End JS.
Import JS.

(** ** The global [parseInt(string)] with no radix argument (ECMA-262, 19.2.5)

    The result is the exact integer read.  Where JavaScript rounds a very
    long digit string to the nearest double, or to [Infinity], the sign of
    the result and whether it is zero are those of the exact integer. *)

Module ParseInt.

(** StrWhiteSpaceChar: white space and line terminators. *)
Definition is_white_space (c : N) : bool :=
  (existsb (N.eqb c)
     [9; 10; 11; 12; 13; 32; 160; 5760; 8232; 8233; 8239; 8287; 12288; 65279]
   || (8192 <=? c) && (c <=? 8202))%N.

Fixpoint trim_start (s : jsstring) : jsstring :=
  match s with
  | c :: s' => if is_white_space c then trim_start s' else s
  | [] => []
  end.

(** Value of a code unit as a digit of radix [R] (letters of either case
    stand for 10 to 35). *)
Definition digit_value (R : Z) (c : N) : option Z :=
  let v :=
    if ((48 <=? c) && (c <=? 57))%N then Some (Z.of_N c - 48)
    else if ((97 <=? c) && (c <=? 122))%N then Some (Z.of_N c - 87)
    else if ((65 <=? c) && (c <=? 90))%N then Some (Z.of_N c - 55)
    else None in
  match v with
  | Some d => if d <? R then Some d else None
  | None => None
  end.

(** The longest prefix of radix-[R] digits, read as an integer; [acc] is
    [None] while no digit has been seen. *)
Fixpoint digits (R : Z) (s : jsstring) (acc : option Z) : option Z :=
  match s with
  | c :: s' =>
      match digit_value R c with
      | Some d => digits R s' (Some (default 0 acc * R + d))
      | None => acc
      end
  | [] => acc
  end.

Definition parseInt (input : jsstring) : jsnum :=
  let s1 := trim_start input in
  let '(sign, s2) :=
    match s1 with
    | 45%N :: r => (-1, r)      (* '-' *)
    | 43%N :: r => (1, r)       (* '+' *)
    | _ => (1, s1)
    end in
  let '(R, s3) :=
    match s2 with
    | 48%N :: 120%N :: r => (16, r)   (* 0x *)
    | 48%N :: 88%N :: r => (16, r)    (* 0X *)
    | _ => (10, s2)
    end in
  match digits R s3 None with
  | None => NaN
  | Some m => Num (sign * m)
  end.

End ParseInt.
Import ParseInt.

(** ** IssueDetailClient.tsx *)

Module IssueDetailClient.

(** The props the handlers close over. *)
Record props := {
  currentUserId : jsnum;
  accessToken : jsstring
}.

(** The [useState] cells of the component. *)
Record state := {
  issue : gmap string jsval;
  isLoading : bool;
  error : option jsstring;                        (* string | null *)
  showExtendModal : bool;
  extensionDays : jsnum;
  justification : jsstring;
  showPRForm : bool;
  celebrationResult : option (gmap string jsval); (* SubmissionResult | null *)
  hasSubmittedPR : bool
}.

Definition setIssue (v : gmap string jsval) (st : state) : state :=
  {| issue := v; isLoading := isLoading st; error := error st;
     showExtendModal := showExtendModal st; extensionDays := extensionDays st;
     justification := justification st; showPRForm := showPRForm st;
     celebrationResult := celebrationResult st;
     hasSubmittedPR := hasSubmittedPR st |}.

Definition setIsLoading (v : bool) (st : state) : state :=
  {| issue := issue st; isLoading := v; error := error st;
     showExtendModal := showExtendModal st; extensionDays := extensionDays st;
     justification := justification st; showPRForm := showPRForm st;
     celebrationResult := celebrationResult st;
     hasSubmittedPR := hasSubmittedPR st |}.

Definition setError (v : option jsstring) (st : state) : state :=
  {| issue := issue st; isLoading := isLoading st; error := v;
     showExtendModal := showExtendModal st; extensionDays := extensionDays st;
     justification := justification st; showPRForm := showPRForm st;
     celebrationResult := celebrationResult st;
     hasSubmittedPR := hasSubmittedPR st |}.

Definition setShowExtendModal (v : bool) (st : state) : state :=
  {| issue := issue st; isLoading := isLoading st; error := error st;
     showExtendModal := v; extensionDays := extensionDays st;
     justification := justification st; showPRForm := showPRForm st;
     celebrationResult := celebrationResult st;
     hasSubmittedPR := hasSubmittedPR st |}.

Definition setExtensionDays (v : jsnum) (st : state) : state :=
  {| issue := issue st; isLoading := isLoading st; error := error st;
     showExtendModal := showExtendModal st; extensionDays := v;
     justification := justification st; showPRForm := showPRForm st;
     celebrationResult := celebrationResult st;
     hasSubmittedPR := hasSubmittedPR st |}.

Definition setJustification (v : jsstring) (st : state) : state :=
  {| issue := issue st; isLoading := isLoading st; error := error st;
     showExtendModal := showExtendModal st; extensionDays := extensionDays st;
     justification := v; showPRForm := showPRForm st;
     celebrationResult := celebrationResult st;
     hasSubmittedPR := hasSubmittedPR st |}.

Definition setShowPRForm (v : bool) (st : state) : state :=
  {| issue := issue st; isLoading := isLoading st; error := error st;
     showExtendModal := showExtendModal st; extensionDays := extensionDays st;
     justification := justification st; showPRForm := v;
     celebrationResult := celebrationResult st;
     hasSubmittedPR := hasSubmittedPR st |}.

Definition setCelebrationResult (v : option (gmap string jsval)) (st : state)
  : state :=
  {| issue := issue st; isLoading := isLoading st; error := error st;
     showExtendModal := showExtendModal st; extensionDays := extensionDays st;
     justification := justification st; showPRForm := showPRForm st;
     celebrationResult := v;
     hasSubmittedPR := hasSubmittedPR st |}.

Definition setHasSubmittedPR (v : bool) (st : state) : state :=
  {| issue := issue st; isLoading := isLoading st; error := error st;
     showExtendModal := showExtendModal st; extensionDays := extensionDays st;
     justification := justification st; showPRForm := showPRForm st;
     celebrationResult := celebrationResult st;
     hasSubmittedPR := v |}.

(** The initial values given to [useState] (lines 30-38). *)
Definition initial (initialIssue : gmap string jsval) : state :=
  {| issue := initialIssue;
     isLoading := false;
     error := None;
     showExtendModal := false;
     extensionDays := Num 7;
     justification := [];
     showPRForm := false;
     celebrationResult := None;
     hasSubmittedPR :=
       strict_eq (get initialIssue "status") (JStr (lit "completed")) |}.

(** What a handler does to the outside world, in order. *)
Inductive effect :=
| ClaimIssue (issueId : jsval) (userId : jsnum) (token : jsstring)
| ReleaseIssue (issueId : jsval) (userId : jsnum) (token : jsstring)
| ExtendClaimDeadline (issueId : jsval) (userId : jsnum) (days : jsnum)
    (text : jsstring) (token : jsstring)
| WindowOpen (url : jsval)
| Confirm
| RouterRefresh.

(** Lines 40-41. *)
Definition isClaimedByCurrentUser (p : props) (st : state) : bool :=
  strict_eq (get (issue st) "claimed_by") (JNum (currentUserId p)).

Definition isClaimedByOther (p : props) (st : state) : bool :=
  truthy (get (issue st) "claimed_by")
  && negb (strict_eq (get (issue st) "claimed_by") (JNum (currentUserId p))).

(** [handleClaim] (lines 43-68).  [now] is [new Date().toISOString()],
    [api] the outcome of [await claimIssue(...)]. *)
Definition handleClaim (p : props) (now : jsstring) (api : outcome)
    (st : state) : state * list effect :=
  let st1 := setError None (setIsLoading true st) in
  let call := ClaimIssue (get (issue st) "id") (currentUserId p) (accessToken p) in
  match api with
  | Resolved result =>
      if truthy (get result "success") then
        let issue' :=
          <["claim_expires_at" := js_or (get result "claim_expires_at") JNull]>
          (<["claimed_at" := js_or (get result "claimed_at") (JStr now)]>
          (<["claimed_by" := JNum (currentUserId p)]>
          (<["status" := JStr (lit "claimed")]> (issue st)))) in
        (setIsLoading false (setIssue issue' st1),
         [call; WindowOpen (get (issue st) "github_url")])
      else (setIsLoading false st1, [call])
  | Rejected err =>
      (setIsLoading false
         (setError (Some (message_or err (lit "Failed to claim issue"))) st1),
       [call])
  end.

(** [handleRelease] (lines 70-95).  [confirmed] is what [confirm(...)]
    returned. *)
Definition handleRelease (p : props) (confirmed : bool) (api : outcome)
    (st : state) : state * list effect :=
  if negb confirmed then (st, [Confirm])
  else
    let st1 := setError None (setIsLoading true st) in
    let call :=
      ReleaseIssue (get (issue st) "id") (currentUserId p) (accessToken p) in
    match api with
    | Resolved result =>
        if truthy (get result "success") then
          let issue' :=
            <["claim_expires_at" := JNull]>
            (<["claimed_at" := JNull]>
            (<["claimed_by" := JNull]>
            (<["status" := JStr (lit "available")]> (issue st)))) in
          (setIsLoading false (setIssue issue' st1), [Confirm; call])
        else (setIsLoading false st1, [Confirm; call])
    | Rejected err =>
        (setIsLoading false
           (setError (Some (message_or err (lit "Failed to release issue"))) st1),
         [Confirm; call])
    end.

(** The message of line 99. *)
Definition justification_message : jsstring :=
  lit "Please provide a justification (at least 10 characters)".

(** [handleExtend] (lines 97-128). *)
Definition handleExtend (p : props) (api : outcome) (st : state)
  : state * list effect :=
  if (length (justification st) <? 10)%nat then
    (setError (Some justification_message) st, [])
  else
    let st1 := setError None (setIsLoading true st) in
    let call :=
      ExtendClaimDeadline (get (issue st) "id") (currentUserId p)
        (extensionDays st) (justification st) (accessToken p) in
    match api with
    | Resolved result =>
        if truthy (get result "success") then
          let issue' :=
            <["claim_expires_at" :=
                js_or (get result "new_expiration")
                      (get (issue st) "claim_expires_at")]> (issue st) in
          (setIsLoading false
             (setJustification []
                (setShowExtendModal false (setIssue issue' st1))),
           [call])
        else (setIsLoading false st1, [call])
    | Rejected err =>
        (setIsLoading false
           (setError (Some (message_or err (lit "Failed to extend deadline")))
              st1),
         [call])
    end.

(** [handleGoToGitHub] (lines 130-132). *)
Definition handleGoToGitHub (st : state) : state * list effect :=
  (st, [WindowOpen (get (issue st) "github_url")]).

(** [handleCloseCelebration] (lines 147-151). *)
Definition handleCloseCelebration (st : state) : state * list effect :=
  (setCelebrationResult None st, [RouterRefresh]).

(** [onChange] of the extension-days input (line 384). *)
Definition onChangeExtensionDays (value : jsstring) (st : state) : state :=
  setExtensionDays (or_num (parseInt value) (Num 1)) st.

(** [onChange] of the justification textarea (line 395). *)
Definition onChangeJustification (value : jsstring) (st : state) : state :=
  setJustification value st.

(** Cancel button of the modal (lines 411-415). *)
Definition onCancelExtend (st : state) : state :=
  setError None (setJustification [] (setShowExtendModal false st)).

(** *** The handlers around their [await]

    A handler that awaits the API runs in two halves.  The first runs when
    the control is used, in the render [st] the handler belongs to, up to
    the [await]; it says whether a request is now under way.  The second
    runs when the answer comes: the cells it sets are those of the page as
    it is by then ([st]), while [issue] in [{...issue, ...}] is still the
    one of the render the handler belongs to ([render]). *)

(** [handleClaim], lines 44-48. *)
Definition handleClaim_begin (p : props) (st : state) : state * list effect :=
  (setError None (setIsLoading true st),
   [ClaimIssue (get (issue st) "id") (currentUserId p) (accessToken p)]).

(** [handleClaim], lines 50-67. *)
Definition handleClaim_resume (p : props) (now : jsstring) (api : outcome)
    (render st : state) : state * list effect :=
  match api with
  | Resolved result =>
      if truthy (get result "success") then
        let issue' :=
          <["claim_expires_at" := js_or (get result "claim_expires_at") JNull]>
          (<["claimed_at" := js_or (get result "claimed_at") (JStr now)]>
          (<["claimed_by" := JNum (currentUserId p)]>
          (<["status" := JStr (lit "claimed")]> (issue render)))) in
        (setIsLoading false (setIssue issue' st),
         [WindowOpen (get (issue render) "github_url")])
      else (setIsLoading false st, [])
  | Rejected err =>
      (setIsLoading false
         (setError (Some (message_or err (lit "Failed to claim issue"))) st),
       [])
  end.

(** [handleRelease], lines 71-79. *)
Definition handleRelease_begin (p : props) (confirmed : bool) (st : state)
  : state * list effect * bool :=
  if negb confirmed then (st, [Confirm], false)
  else
    (setError None (setIsLoading true st),
     [Confirm;
      ReleaseIssue (get (issue st) "id") (currentUserId p) (accessToken p)],
     true).

(** [handleRelease], lines 81-94. *)
Definition handleRelease_resume (p : props) (api : outcome)
    (render st : state) : state :=
  match api with
  | Resolved result =>
      if truthy (get result "success") then
        let issue' :=
          <["claim_expires_at" := JNull]>
          (<["claimed_at" := JNull]>
          (<["claimed_by" := JNull]>
          (<["status" := JStr (lit "available")]> (issue render)))) in
        setIsLoading false (setIssue issue' st)
      else setIsLoading false st
  | Rejected err =>
      setIsLoading false
        (setError (Some (message_or err (lit "Failed to release issue"))) st)
  end.

(** [handleExtend], lines 98-113. *)
Definition handleExtend_begin (p : props) (st : state)
  : state * list effect * bool :=
  if (length (justification st) <? 10)%nat then
    (setError (Some justification_message) st, [], false)
  else
    (setError None (setIsLoading true st),
     [ExtendClaimDeadline (get (issue st) "id") (currentUserId p)
        (extensionDays st) (justification st) (accessToken p)],
     true).

(** [handleExtend], lines 115-127. *)
Definition handleExtend_resume (p : props) (api : outcome)
    (render st : state) : state :=
  match api with
  | Resolved result =>
      if truthy (get result "success") then
        let issue' :=
          <["claim_expires_at" :=
              js_or (get result "new_expiration")
                    (get (issue render) "claim_expires_at")]> (issue render) in
        setIsLoading false
          (setJustification []
             (setShowExtendModal false (setIssue issue' st)))
      else setIsLoading false st
  | Rejected err =>
      setIsLoading false
        (setError (Some (message_or err (lit "Failed to extend deadline"))) st)
  end.

(** [handlePRSuccess] (lines 134-145).  The form calls the one it was
    handed as [onSuccess] in the render [render] it was submitted in. *)
Definition handlePRSuccess (render : state) (result : gmap string jsval)
    (st : state) : state :=
  setHasSubmittedPR true
    (setCelebrationResult (Some result)
       (setShowPRForm false
          (setIssue (<["status" := JStr (lit "completed")]> (issue render))
             st))).

End IssueDetailClient.
Import IssueDetailClient.

(** ** What the rendered page lets the user do

    One constructor per control of the JSX (lines 153-435), guarded by the
    condition under which the control is rendered and enabled, and one per
    request whose answer comes.  A control is used in the current render;
    what its handler does after the [await] happens later, whatever other
    events were taken in between, and with the [issue] of the render the
    control was used in. *)

Module Page.

Definition ownControls (p : props) (st : state) : bool :=
  isClaimedByCurrentUser p st && negb (hasSubmittedPR st).

(** A request under way, with the render its handler belongs to. *)
Inductive pending :=
| PendingClaim (render : state)       (* claimIssue *)
| PendingRelease (render : state)     (* releaseIssue *)
| PendingExtend (render : state)      (* extendClaimDeadline *)
| PendingSubmit (render : state).     (* submitPullRequest of the form *)

Definition render_of (pd : pending) : state :=
  match pd with
  | PendingClaim r | PendingRelease r | PendingExtend r | PendingSubmit r => r
  end.

(** The requests under way once a first half has said whether it awaits. *)
Definition await (awaits : bool) (pd : pending) (fl : list pending)
  : list pending :=
  if awaits then pd :: fl else fl.

Inductive step (p : props)
  : state * list pending -> state * list pending -> Prop :=
| click_solve_it st fl :                           (* lines 282-290 *)
    strict_eq (get (issue st) "status") (JStr (lit "available")) = true ->
    isLoading st = false ->
    step p (st, fl) ((handleClaim_begin p st).1, PendingClaim st :: fl)
| claim_settles now api render st fl1 fl2 :
    step p (st, fl1 ++ PendingClaim render :: fl2)
           ((handleClaim_resume p now api render st).1, fl1 ++ fl2)
| click_go_to_github st fl :                       (* lines 294-299, 326-333 *)
    ownControls p st || isClaimedByOther p st = true ->
    step p (st, fl) ((handleGoToGitHub st).1, fl)
| click_toggle_pr_form st fl :                     (* lines 301-306 *)
    ownControls p st = true ->
    step p (st, fl) (setShowPRForm (negb (showPRForm st)) st, fl)
| click_release confirmed st fl :                  (* lines 308-314 *)
    ownControls p st = true ->
    isLoading st = false ->
    step p (st, fl)
           ((handleRelease_begin p confirmed st).1.1,
            await (handleRelease_begin p confirmed st).2
              (PendingRelease st) fl)
| release_settles api render st fl1 fl2 :
    step p (st, fl1 ++ PendingRelease render :: fl2)
           (handleRelease_resume p api render st, fl1 ++ fl2)
| click_extend_deadline st fl :                    (* lines 316-322 *)
    ownControls p st = true ->
    isLoading st = false ->
    step p (st, fl) (setShowExtendModal true st, fl)
| pr_form_submit st fl :                           (* lines 345-358 *)
    showPRForm st && ownControls p st = true ->
    step p (st, fl) (st, PendingSubmit st :: fl)
| pr_form_success result render st fl1 fl2 :       (* onSuccess *)
    truthy (get result "success") = true ->
    step p (st, fl1 ++ PendingSubmit render :: fl2)
           (handlePRSuccess render result st, fl1 ++ fl2)
| pr_form_failure render st fl1 fl2 :
    step p (st, fl1 ++ PendingSubmit render :: fl2) (st, fl1 ++ fl2)
| pr_form_cancel st fl :                           (* onCancel *)
    showPRForm st && ownControls p st = true ->
    step p (st, fl) (setShowPRForm false st, fl)
| change_extension_days value st fl :              (* lines 379-386 *)
    showExtendModal st = true ->
    step p (st, fl) (onChangeExtensionDays value st, fl)
| change_justification value st fl :               (* lines 393-399 *)
    showExtendModal st = true ->
    step p (st, fl) (onChangeJustification value st, fl)
| click_extend st fl :                             (* lines 403-409 *)
    showExtendModal st = true ->
    isLoading st || (length (justification st) <? 10)%nat = false ->
    step p (st, fl)
           ((handleExtend_begin p st).1.1,
            await (handleExtend_begin p st).2 (PendingExtend st) fl)
| extend_settles api render st fl1 fl2 :
    step p (st, fl1 ++ PendingExtend render :: fl2)
           (handleExtend_resume p api render st, fl1 ++ fl2)
| click_cancel_extend st fl :                      (* lines 410-420 *)
    showExtendModal st = true ->
    isLoading st = false ->
    step p (st, fl) (onCancelExtend st, fl)
| close_celebration st fl :                        (* lines 427-432 *)
    is_Some (celebrationResult st) ->
    step p (st, fl) ((handleCloseCelebration st).1, fl).

(** The page after any number of events: its cells and the requests
    under way. *)
Inductive run (p : props) (initialIssue : gmap string jsval)
  : state -> list pending -> Prop :=
| run_initial : run p initialIssue (initial initialIssue) []
| run_step st fl st' fl' :
    run p initialIssue st fl -> step p (st, fl) (st', fl') ->
    run p initialIssue st' fl'.

(** States the page can be in after any number of events. *)
Definition reachable (p : props) (initialIssue : gmap string jsval)
    (st : state) : Prop :=
  ∃ fl, run p initialIssue st fl.

End Page.
Import Page.

(** ** CountdownTimer.tsx *)

Module CountdownTimer.

(** Arithmetic of the source on numbers, [NaN] propagating.  The divisors
    are the positive constants of the source. *)
Definition num_sub (a b : jsnum) : jsnum :=
  match a, b with
  | Num x, Num y => Num (x - y)
  | _, _ => NaN
  end.

(** [Math.floor(a / b)] *)
Definition num_floor_div (a : jsnum) (b : Z) : jsnum :=
  match a with
  | Num x => Num (x / b)
  | NaN => NaN
  end.

(** [a % b]: the remainder has the sign of the dividend. *)
Definition num_rem (a : jsnum) (b : Z) : jsnum :=
  match a with
  | Num x => Num (Z.rem x b)
  | NaN => NaN
  end.

(** [a <= b] and [a > b]; any comparison with [NaN] is false. *)
Definition num_le (a b : jsnum) : bool :=
  match a, b with
  | Num x, Num y => x <=? y
  | _, _ => false
  end.

Definition num_gt (a b : jsnum) : bool :=
  match a, b with
  | Num x, Num y => y <? x
  | _, _ => false
  end.

(** Number to string, as a template literal does it. *)
Definition show_num (n : jsnum) : jsstring :=
  match n with
  | NaN => lit "NaN"
  | Num z => lit (DecimalString.NilZero.string_of_int (Z.to_int z))
  end.

(** The two [useState] cells (lines 11-12). *)
Record timer := {
  timeRemaining : jsstring;
  isExpired : bool
}.

Definition initial_timer : timer :=
  {| timeRemaining := []; isExpired := false |}.

Definition setIsExpired (v : bool) (t : timer) : timer :=
  {| timeRemaining := timeRemaining t; isExpired := v |}.

Definition setTimeRemaining (v : jsstring) (t : timer) : timer :=
  {| timeRemaining := v; isExpired := isExpired t |}.

(** [calculateTimeRemaining] (lines 15-37).  [now] is
    [new Date().getTime()], [expiry] is [new Date(expiresAt).getTime()],
    which is [NaN] when [expiresAt] is not a date. *)
Definition calculateTimeRemaining (now expiry : jsnum) (t : timer) : timer :=
  let diff := num_sub expiry now in
  if num_le diff (Num 0) then
    setTimeRemaining (lit "Expired") (setIsExpired true t)
  else
    let days := num_floor_div diff (1000 * 60 * 60 * 24) in
    let hours :=
      num_floor_div (num_rem diff (1000 * 60 * 60 * 24)) (1000 * 60 * 60) in
    let minutes := num_floor_div (num_rem diff (1000 * 60 * 60)) (1000 * 60) in
    if num_gt days (Num 0) then
      setTimeRemaining
        (show_num days ++ lit "d " ++ show_num hours ++ lit "h") t
    else if num_gt hours (Num 0) then
      setTimeRemaining
        (show_num hours ++ lit "h " ++ show_num minutes ++ lit "m") t
    else
      setTimeRemaining (show_num minutes ++ lit "m") t.

End CountdownTimer.
Import CountdownTimer.

(** ** The Claim Manager behind the API *)

Module ClaimManager.

(** Modelled from the spec: the issue record kept by the service behind
    [claimIssue]; the service is not among the sources of the front end. *)
Inductive status := Available | Claimed | Completed | Closed.

(** Modelled from the spec: the difficulty classification of an issue. *)
Inductive difficulty := Easy | Medium | Hard | Unknown.

(** Modelled from the spec: the claim-related fields of a stored issue
    (section 3); time stamps are milliseconds. *)
Record issue := {
  istatus : status;
  claimed_by : option Z;
  claimed_at : option Z;
  claim_expires_at : option Z;
  difficulty_level : difficulty
}.

(** Modelled from the spec: the error kinds of [claim] (sections 6, 7). *)
Inductive claim_error := AlreadyClaimed | NotClaimable.

(** Modelled from the spec: the result of [claim] (section 6). *)
Inductive claim_result :=
| Success (at_ expires : Z)
| Failure (e : claim_error).

Definition is_success (r : claim_result) : bool :=
  match r with
  | Success _ _ => true
  | Failure _ => false
  end.

(** Modelled from the spec: [claim] as the atomic conditional update of
    section 4.3, "set status=claimed, claimed_by=X, claimed_at=now,
    expires_at=... WHERE status=available", zero rows affected being
    [AlreadyClaimed] on a claimed issue and [NotClaimable] on a completed
    or closed one (section 4.1).  [base_days] is the configured lease
    duration per difficulty (section 4.2). *)
Definition claim (base_days : difficulty -> Z) (now user : Z) (i : issue)
  : issue * claim_result :=
  match istatus i with
  | Available =>
      let expires := now + base_days (difficulty_level i) * 86400000 in
      ({| istatus := Claimed;
          claimed_by := Some user;
          claimed_at := Some now;
          claim_expires_at := Some expires;
          difficulty_level := difficulty_level i |},
       Success now expires)
  | Claimed => (i, Failure AlreadyClaimed)
  | Completed | Closed => (i, Failure NotClaimable)
  end.

(** Modelled from the spec: concurrent calls on one issue take effect in
    the total order the storage layer gives to competing conditional
    updates (section 5); [calls] lists the (time, user) of each call in
    that order. *)
Fixpoint claims (base_days : difficulty -> Z) (calls : list (Z * Z))
    (i : issue) : issue * list claim_result :=
  match calls with
  | [] => (i, [])
  | (now, user) :: rest =>
      let '(i1, r) := claim base_days now user i in
      let '(i2, rs) := claims base_days rest i1 in
      (i2, r :: rs)
  end.

End ClaimManager.

(** ** Vocabulary of the statements *)

Module Statements.

(** What [handleExtend] sends when it gets as far as the API (lines
    107-113). *)
Definition extend_request (p : props) (st : state) : effect :=
  ExtendClaimDeadline (get (issue st) "id") (currentUserId p)
    (extensionDays st) (justification st) (accessToken p).

(** The API call went through and its result has a truthy [success]. *)
Definition reports_success (api : outcome) : bool :=
  match api with
  | Resolved result => truthy (get result "success")
  | Rejected _ => false
  end.

(** The two equivalences of the data model, on an issue object:
    [claimed_by] is present iff the status is ['claimed'], and
    [claim_expires_at] is present iff [claimed_by] is. *)
Definition claim_fields_consistent (i : gmap string jsval) : Prop :=
  (present (get i "claimed_by") = true <->
   get i "status" = JStr (lit "claimed")) ∧
  (present (get i "claim_expires_at") = true <->
   present (get i "claimed_by") = true).

(** The part of it that every handler keeps: a claimed issue has a holder,
    an available one has none. *)
Definition holder_matches_status (i : gmap string jsval) : Prop :=
  (get i "status" = JStr (lit "claimed") ->
   present (get i "claimed_by") = true) ∧
  (get i "status" = JStr (lit "available") ->
   present (get i "claimed_by") = false).

(** What stays of the first equivalence along the life of the page: a
    claimed issue has a holder, and an issue with a holder is claimed or
    completed. *)
Definition holder_follows_status (i : gmap string jsval) : Prop :=
  (get i "status" = JStr (lit "claimed") ->
   present (get i "claimed_by") = true) ∧
  (present (get i "claimed_by") = true ->
   get i "status" = JStr (lit "claimed") ∨
   get i "status" = JStr (lit "completed")).

(** A property of issue objects holds of the page's issue and of the
    issue of every render a request under way belongs to. *)
Definition holds_throughout (P : gmap string jsval -> Prop) (st : state)
    (fl : list pending) : Prop :=
  P (issue st) ∧ Forall (λ pd, P (issue (render_of pd))) fl.

(** The form was submitted by the holder: every [submitPullRequest] under
    way belongs to a render in which the issue is claimed by the current
    user. *)
Definition submitted_by_holder (p : props) (fl : list pending) : Prop :=
  Forall (λ pd, match pd with
                | PendingSubmit r => isClaimedByCurrentUser p r = true
                | _ => True
                end) fl.

(** A number is positive. *)
Definition positive_num (n : jsnum) : Prop :=
  match n with
  | Num z => 0 < z
  | NaN => False
  end.

(** No minus sign among the code units of a string. *)
Definition no_minus (s : jsstring) : Prop := Forall (λ c, c ≠ 45%N) s.

End Statements.
Import Statements.

(** ** Fixtures of the component tests

    The objects of [__tests__/PRSubmissionForm.test.tsx] (suite
    [IssueDetailClient]). *)

Module Fixtures.

Definition testProps : props :=
  {| currentUserId := Num 1; accessToken := lit "test-token" |}.

Definition mockIssue : gmap string jsval :=
  <["id" := JNum (Num 1)]>
  (<["github_issue_id" := JNum (Num 123)]>
  (<["repository_id" := JNum (Num 1)]>
  (<["title" := JStr (lit "Fix bug in authentication")]>
  (<["labels" := JRef 0]>
  (<["programming_language" := JStr (lit "JavaScript")]>
  (<["difficulty_level" := JStr (lit "easy")]>
  (<["ai_explanation" := JNull]>
  (<["status" := JStr (lit "available")]>
  (<["claimed_by" := JNull]>
  (<["claimed_at" := JNull]>
  (<["claim_expires_at" := JNull]>
  (<["github_url" := JStr (lit "https://github.com/test/repo/issues/123")]>
  (<["created_at" := JStr (lit "2024-01-01T00:00:00Z")]>
  (<["updated_at" := JStr (lit "2024-01-01T00:00:00Z")]>
  (<["repository_name" := JStr (lit "test-repo")]>
  (<["repository_full_name" := JStr (lit "test/test-repo")]>
   ∅)))))))))))))))).

Definition claimedIssue : gmap string jsval :=
  <["claim_expires_at" := JStr (lit "2024-01-08T00:00:00Z")]>
  (<["claimed_at" := JStr (lit "2024-01-01T00:00:00Z")]>
  (<["claimed_by" := JNum (Num 1)]>
  (<["status" := JStr (lit "claimed")]> mockIssue))).

Definition mockClaimResult : gmap string jsval :=
  <["success" := JBool true]>
  (<["message" := JStr (lit "Issue claimed successfully")]>
  (<["issue_id" := JNum (Num 1)]>
  (<["claimed_at" := JStr (lit "2024-01-01T00:00:00Z")]>
  (<["claim_expires_at" := JStr (lit "2024-01-08T00:00:00Z")]> ∅)))).

Definition mockReleaseResult : gmap string jsval :=
  <["success" := JBool true]>
  (<["message" := JStr (lit "Issue released successfully")]>
  (<["issue_id" := JNum (Num 1)]> ∅)).

Definition mockExtensionResult : gmap string jsval :=
  <["success" := JBool true]>
  (<["message" := JStr (lit "Deadline extended")]>
  (<["issue_id" := JNum (Num 1)]>
  (<["new_expiration" := JStr (lit "2024-01-15T00:00:00Z")]> ∅))).

(** An extension result shaped as the interface description has it,
    [{success, new_expires_at}]. *)
Definition newExpiresAtResult : gmap string jsval :=
  <["success" := JBool true]>
  (<["new_expires_at" := JStr (lit "2024-01-15T00:00:00Z")]> ∅).

(** A claim result without the optional time stamps of [ClaimResult]. *)
Definition bareClaimResult : gmap string jsval :=
  <["success" := JBool true]>
  (<["message" := JStr (lit "Issue claimed successfully")]> ∅).

(** The submission result of
    [__tests__/PRSubmissionWorkflow.integration.test.tsx]. *)
Definition mockSubmissionResult : gmap string jsval :=
  <["success" := JBool true]>
  (<["message" := JStr (lit "PR submitted successfully")]>
  (<["contribution_id" := JNum (Num 1)]>
  (<["pr_number" := JNum (Num 999)]>
  (<["status" := JStr (lit "submitted")]>
  (<["points_earned" := JNum (Num 10)]> ∅))))).

(** The extend modal of a claimed issue, opened and filled in. *)
Definition extendModal (days : jsnum) (text : jsstring) : state :=
  setJustification text
    (setExtensionDays days (setShowExtendModal true (initial claimedIssue))).

(** *** A claim and a pull request

    The visitor of [mockIssue] claims it, opens the form and submits a
    pull request. *)

Definition nowISO : jsstring := lit "2024-01-02T00:00:00.000Z".

Definition claimAsked : state := (handleClaim_begin testProps (initial mockIssue)).1.

Definition claimAnswered (result : gmap string jsval) : state :=
  (handleClaim_resume testProps nowISO (Resolved result) (initial mockIssue)
     claimAsked).1.

Definition claimedFormShown : state :=
  setShowPRForm (negb (showPRForm (claimAnswered mockClaimResult)))
    (claimAnswered mockClaimResult).

Definition prCompleted : state :=
  handlePRSuccess claimedFormShown mockSubmissionResult claimedFormShown.

(** *** A pull request and an extension under way together

    The holder of [claimedIssue] opens the form and submits a pull request,
    then opens the extend modal, types a justification and asks for the
    extension; the answer to the pull request comes first, the answer to
    the extension second. *)

Definition formShown : state :=
  setShowPRForm (negb (showPRForm (initial claimedIssue)))
    (initial claimedIssue).

Definition modalFilled : state :=
  onChangeJustification (lit "I need more time to complete the work")
    (setShowExtendModal true formShown).

Definition extendAsked : state := (handleExtend_begin testProps modalFilled).1.1.

Definition prAnswered : state :=
  handlePRSuccess formShown mockSubmissionResult extendAsked.

Definition extendAnswered : state :=
  handleExtend_resume testProps (Resolved mockExtensionResult) modalFilled
    prAnswered.

(** *** A release with the extend modal left open

    The holder of [claimedIssue] opens the extend modal and types a
    justification, releases the issue, and then asks for the extension. *)

Definition releasedWithModal : state :=
  handleRelease_resume testProps (Resolved mockReleaseResult)
    (extendModal (Num 7) (lit "ten chars."))
    (handleRelease_begin testProps true
       (extendModal (Num 7) (lit "ten chars."))).1.1.

Definition extendedAfterRelease : state :=
  handleExtend_resume testProps (Resolved mockExtensionResult)
    releasedWithModal (handleExtend_begin testProps releasedWithModal).1.1.

End Fixtures.
Import Fixtures.

(** ** PRSubmissionForm.tsx *)

Module PRSubmissionForm.

(** [s.startsWith(pat)] at the head of [s], and [s.includes(pat)]. *)
Fixpoint starts_with (pat s : jsstring) : bool :=
  match pat, s with
  | [], _ => true
  | _ :: _, [] => false
  | a :: pat', c :: s' => (a =? c)%N && starts_with pat' s'
  end.

Fixpoint includes (s pat : jsstring) : bool :=
  starts_with pat s ||
  match s with
  | [] => false
  | _ :: s' => includes s' pat
  end.

(** [s.trim()]: white space and line terminators go from both ends. *)
Definition trim (s : jsstring) : jsstring :=
  rev (trim_start (rev (trim_start s))).

(** What the form is given by its parent (lines 7-13). *)
Record form_props := {
  issueId : jsval;
  userId : jsnum;
  formToken : jsstring
}.

(** The [useState] cells of the form (lines 22-25). *)
Record form := {
  prUrl : jsstring;
  isSubmitting : bool;
  formError : jsval;                    (* string | null *)
  validationErrors : list jsstring
}.

Definition initial_form : form :=
  {| prUrl := []; isSubmitting := false; formError := JNull;
     validationErrors := [] |}.

Definition setPrUrl (v : jsstring) (f : form) : form :=
  {| prUrl := v; isSubmitting := isSubmitting f; formError := formError f;
     validationErrors := validationErrors f |}.

Definition setIsSubmitting (v : bool) (f : form) : form :=
  {| prUrl := prUrl f; isSubmitting := v; formError := formError f;
     validationErrors := validationErrors f |}.

Definition setFormError (v : jsval) (f : form) : form :=
  {| prUrl := prUrl f; isSubmitting := isSubmitting f; formError := v;
     validationErrors := validationErrors f |}.

Definition setValidationErrors (v : list jsstring) (f : form) : form :=
  {| prUrl := prUrl f; isSubmitting := isSubmitting f;
     formError := formError f; validationErrors := v |}.

(** What the form does to the outside world, in order. *)
Inductive form_effect :=
| PreventDefault
| SubmitPullRequest (issue_id : jsval) (pr_url : jsstring) (user_id : jsnum)
    (token : jsstring)
| OnSuccess (result : gmap string jsval).

Section WithURL.

(** [new URL(url)]: the host name of the parsed URL, or [None] when the
    constructor throws. *)
Context (parseURL : jsstring -> option jsstring).

(** [validatePRUrl] (lines 27-53). *)
Definition validatePRUrl (url : jsstring) : list jsstring :=
  if negb (truthy (JStr (trim url))) then [lit "PR URL is required"]
  else
    match parseURL url with
    | Some hostname =>
        (if negb (includes hostname (lit "github.com"))
         then [lit "URL must be from github.com"] else [])
        ++ (if negb (includes url (lit "/pull/"))
            then [lit "URL must be a GitHub pull request (should contain /pull/)"]
            else [])
    | None => [lit "Invalid URL format"]
    end.

(** [handleSubmit] (lines 55-82); [api] is the outcome of
    [await submitPullRequest(...)]. *)
Definition handleSubmit (p : form_props) (api : outcome) (f : form)
  : form * list form_effect :=
  let errors := validatePRUrl (prUrl f) in
  if (0 <? length errors)%nat then
    (setValidationErrors errors f, [PreventDefault])
  else
    let f1 := setValidationErrors [] (setFormError JNull (setIsSubmitting true f)) in
    let call := SubmitPullRequest (issueId p) (prUrl f) (userId p) (formToken p) in
    match api with
    | Resolved result =>
        if truthy (get result "success") then
          (setIsSubmitting false f1, [PreventDefault; call; OnSuccess result])
        else
          (setIsSubmitting false (setFormError (get result "message") f1),
           [PreventDefault; call])
    | Rejected err =>
        (setIsSubmitting false
           (setFormError
              (JStr (message_or err (lit "Failed to submit pull request"))) f1),
         [PreventDefault; call])
    end.

End WithURL.

(** [handleButtonClick] (lines 84-89). *)
Definition handleButtonClick (f : form) : form :=
  if negb (truthy (JStr (trim (prUrl f)))) then
    setValidationErrors [lit "PR URL is required"] f
  else f.

(** [handleUrlChange] (lines 91-100). *)
Definition handleUrlChange (value : jsstring) (f : form) : form :=
  let f1 := setPrUrl value f in
  let f2 :=
    if (0 <? length (validationErrors f))%nat then setValidationErrors [] f1
    else f1 in
  if truthy (formError f) then setFormError JNull f2 else f2.

End PRSubmissionForm.

(** ** PRManagement.tsx *)

Module PRManagement.

(** The [useState] cells (lines 19-21). *)
Record panel := {
  contribution : option (gmap string jsval);   (* Contribution | null *)
  panelLoading : bool;
  panelError : option jsstring                 (* string | null *)
}.

Definition initial_panel : panel :=
  {| contribution := None; panelLoading := true; panelError := None |}.

Definition setContribution (v : option (gmap string jsval)) (s : panel) : panel :=
  {| contribution := v; panelLoading := panelLoading s;
     panelError := panelError s |}.

Definition setPanelLoading (v : bool) (s : panel) : panel :=
  {| contribution := contribution s; panelLoading := v;
     panelError := panelError s |}.

Definition setPanelError (v : option jsstring) (s : panel) : panel :=
  {| contribution := contribution s; panelLoading := panelLoading s;
     panelError := v |}.

(** Outcome of [await getUserContributions(userId, accessToken)]. *)
Inductive load_outcome :=
| Loaded (contributions : list (gmap string jsval))
| LoadFailed (err : thrown).

(** The test of line 35, [c => c.issue_id === issueId]. *)
Definition of_issue (issueId : jsnum) (c : gmap string jsval) : bool :=
  strict_eq (get c "issue_id") (JNum issueId).

(** [loadContribution] (lines 27-45). *)
Definition loadContribution (issueId : jsnum) (api : load_outcome)
    (s : panel) : panel :=
  let s1 := setPanelError None (setPanelLoading true s) in
  match api with
  | Loaded contributions =>
      match List.find (of_issue issueId) contributions with
      | Some issueContribution =>
          setPanelLoading false (setContribution (Some issueContribution) s1)
      | None => setPanelLoading false s1
      end
  | LoadFailed err =>
      setPanelLoading false
        (setPanelError
           (Some (message_or err (lit "Failed to load contribution"))) s1)
  end.

(** What the component returns (lines 47-102). *)
Inductive view :=
| Spinner
| ErrorWithRetry (message : jsstring)
| Nothing
| StatusDisplay (c : gmap string jsval).

Definition render (s : panel) : view :=
  if panelLoading s then Spinner
  else
    match panelError s with
    | Some ((_ :: _) as message) => ErrorWithRetry message
    | _ =>
        match contribution s with
        | None => Nothing
        | Some c => StatusDisplay c
        end
    end.

(** The loads of a mounted panel, one after the other. *)
Definition loads (issueId : jsnum) (apis : list load_outcome) : panel :=
  foldl (λ s api, loadContribution issueId api s) initial_panel apis.

End PRManagement.

(** * Properties *)

(** ** Values and objects *)

Section Objects.
Implicit Types (o : gmap string jsval) (k : string) (v : jsval).

Lemma get_insert_eq o k v : get (<[k := v]> o) k = v.
Proof. unfold get. by rewrite lookup_insert_eq. Qed.

Lemma get_insert_ne o k k' v : k ≠ k' -> get (<[k := v]> o) k' = get o k'.
Proof. intros Hne. unfold get. by rewrite lookup_insert_ne. Qed.

Lemma js_or_truthy a b : truthy a = true -> js_or a b = a.
Proof. unfold js_or. by intros ->. Qed.

Lemma js_or_falsy a b : truthy a = false -> js_or a b = b.
Proof. unfold js_or. by intros ->. Qed.

Lemma truthy_str s : s ≠ [] -> truthy (JStr s) = true.
Proof. intros Hs. simpl. by rewrite bool_decide_eq_false_2. Qed.

Lemma strict_eq_str_true v s : strict_eq v (JStr s) = true -> v = JStr s.
Proof.
  destruct v; simpl; try discriminate.
  intros H. by apply bool_decide_eq_true_1 in H as ->.
Qed.

Lemma strict_eq_num_true v n : strict_eq v (JNum n) = true -> v = JNum n.
Proof.
  destruct v as [| | |m| |]; simpl; try discriminate.
  destruct m, n; simpl; try discriminate.
  intros H. apply Z.eqb_eq in H. by subst.
Qed.

End Objects.

(** Reads of a property through the inserts of an object spread. *)
Ltac simpl_get :=
  repeat (rewrite get_insert_ne by done; rewrite ?get_insert_eq);
  rewrite ?get_insert_eq.

(** ** Extending the deadline *)

Section Extend.
Context (p : props).

Lemma handleExtend_short api st :
  (length (justification st) < 10)%nat ->
  handleExtend p api st = (setError (Some justification_message) st, []).
Proof.
  intros Hlen. unfold handleExtend.
  by rewrite (proj2 (Nat.ltb_lt _ _) Hlen).
Qed.

Lemma handleExtend_long api st :
  (10 <= length (justification st))%nat ->
  handleExtend p api st =
    let st1 := setError None (setIsLoading true st) in
    match api with
    | Resolved result =>
        if truthy (get result "success") then
          (setIsLoading false
             (setJustification []
                (setShowExtendModal false
                   (setIssue
                      (<["claim_expires_at" :=
                           js_or (get result "new_expiration")
                                 (get (issue st) "claim_expires_at")]>
                         (issue st)) st1))),
           [extend_request p st])
        else (setIsLoading false st1, [extend_request p st])
    | Rejected err =>
        (setIsLoading false
           (setError (Some (message_or err (lit "Failed to extend deadline")))
              st1),
         [extend_request p st])
    end.
Proof.
  intros Hlen. unfold handleExtend.
  by rewrite (proj2 (Nat.ltb_ge _ _) Hlen).
Qed.

Lemma handleExtend_calls api st :
  (10 <= length (justification st))%nat ->
  (handleExtend p api st).2 = [extend_request p st].
Proof.
  intros Hlen. rewrite handleExtend_long by done.
  destruct api as [result|err]; simpl; [|done].
  by destruct (truthy (get result "success")).
Qed.

Lemma handleExtend_success result st :
  (10 <= length (justification st))%nat ->
  truthy (get result "success") = true ->
  issue (handleExtend p (Resolved result) st).1 =
    <["claim_expires_at" :=
        js_or (get result "new_expiration")
              (get (issue st) "claim_expires_at")]> (issue st).
Proof.
  intros Hlen Hok. rewrite handleExtend_long by done. simpl. by rewrite Hok.
Qed.

(** Unless the API reports success, the issue is left as it was. *)
Lemma handleExtend_no_success api st :
  reports_success api = false ->
  issue (handleExtend p api st).1 = issue st.
Proof.
  intros Hno. unfold handleExtend.
  destruct (length (justification st) <? 10)%nat; [done|].
  destruct api as [result|err]; simpl in *; [|done].
  by rewrite Hno.
Qed.

End Extend.

(** C1: an extend request whose justification is shorter than 10
    characters is rejected as a whole with the justification error: no API
    call is made, the issue (and with it [claim_expires_at]) and every
    other cell but [error] stay as they were; a request whose justification
    has 10 characters or more is not rejected on these grounds: it is sent
    to the API, and its success is applied to the issue. *)
Theorem handleExtend_justification_check (p : props) (api : outcome)
    (st : state) :
  ((length (justification st) < 10)%nat ->
     (handleExtend p api st).2 = [] ∧
     (handleExtend p api st).1 = setError (Some justification_message) st ∧
     issue (handleExtend p api st).1 = issue st ∧
     get (issue (handleExtend p api st).1) "claim_expires_at"
       = get (issue st) "claim_expires_at" ∧
     error (handleExtend p api st).1 = Some justification_message) ∧
  ((10 <= length (justification st))%nat ->
     (handleExtend p api st).2 = [extend_request p st] ∧
     (reports_success api = true ->
      error (handleExtend p api st).1 = None ∧
      ∃ result, api = Resolved result ∧
        get (issue (handleExtend p api st).1) "claim_expires_at"
          = js_or (get result "new_expiration")
                  (get (issue st) "claim_expires_at"))).
Proof.
  split; intros Hlen.
  - by rewrite handleExtend_short.
  - split; [by apply handleExtend_calls|].
    intros Hok. destruct api as [result|err]; [|done]. simpl in Hok.
    split.
    + rewrite handleExtend_long by done. simpl. by rewrite Hok.
    + exists result. split; [done|].
      rewrite handleExtend_success by done. apply get_insert_eq.
Qed.

(** The theorem at a justification of 9 and of 10 characters. *)
Lemma handleExtend_justification_check_witness :
  (let st := extendModal (Num 7) (lit "too short") in
   (handleExtend testProps (Resolved mockExtensionResult) st).2 = [] ∧
   error (handleExtend testProps (Resolved mockExtensionResult) st).1
     = Some justification_message) ∧
  (let st := extendModal (Num 7) (lit "ten chars.") in
   (handleExtend testProps (Resolved mockExtensionResult) st).2
     = [extend_request testProps st]).
Proof.
  split.
  - pose proof (proj1 (handleExtend_justification_check testProps
      (Resolved mockExtensionResult) (extendModal (Num 7) (lit "too short"))))
      as H.
    destruct H as (H1 & _ & _ & _ & H5); [simpl; lia|]. by split.
  - pose proof (proj2 (handleExtend_justification_check testProps
      (Resolved mockExtensionResult) (extendModal (Num 7) (lit "ten chars."))))
      as H.
    destruct H as (H1 & _); [simpl; lia|]. exact H1.
Defined.

(** ** The handlers and their halves *)

Section Halves.
Context (p : props).

(** With nothing in between, the two halves are the handler. *)
Lemma handleClaim_halves now api st :
  handleClaim p now api st =
    ((handleClaim_resume p now api st (handleClaim_begin p st).1).1,
     (handleClaim_begin p st).2
       ++ (handleClaim_resume p now api st (handleClaim_begin p st).1).2).
Proof.
  unfold handleClaim, handleClaim_resume, handleClaim_begin.
  destruct api as [result|err]; [|done].
  by destruct (truthy (get result "success")).
Qed.

Lemma handleRelease_halves api st :
  (handleRelease p true api st).1 =
    handleRelease_resume p api st (handleRelease_begin p true st).1.1.
Proof.
  unfold handleRelease, handleRelease_resume, handleRelease_begin.
  destruct api as [result|err]; [|done].
  by destruct (truthy (get result "success")).
Qed.

Lemma handleExtend_halves api st :
  (handleExtend p api st).1 =
    if (handleExtend_begin p st).2
    then handleExtend_resume p api st (handleExtend_begin p st).1.1
    else (handleExtend_begin p st).1.1.
Proof.
  unfold handleExtend, handleExtend_resume, handleExtend_begin.
  destruct (length (justification st) <? 10)%nat; [done|].
  destruct api as [result|err]; [|done].
  by destruct (truthy (get result "success")).
Qed.

(** The request of the first half is the one of the whole handler. *)
Lemma handleExtend_begin_calls st :
  (10 <= length (justification st))%nat ->
  handleExtend_begin p st =
    (setError None (setIsLoading true st), [extend_request p st], true).
Proof.
  intros Hlen. unfold handleExtend_begin.
  by rewrite (proj2 (Nat.ltb_ge _ _) Hlen).
Qed.

End Halves.

(** The filled-in extend modal of the fixtures is a state of the page. *)
Lemma extendModal_run (digits text : jsstring) :
  run testProps claimedIssue
    (extendModal (or_num (parseInt digits) (Num 1)) text) [].
Proof.
  pose proof (run_initial testProps claimedIssue) as R0.
  pose proof (run_step _ _ _ _ _ _ R0
    (click_extend_deadline testProps (initial claimedIssue) []
       eq_refl eq_refl)) as R1.
  pose proof (run_step _ _ _ _ _ _ R1
    (change_extension_days testProps digits
       (setShowExtendModal true (initial claimedIssue)) [] eq_refl)) as R2.
  exact (run_step _ _ _ _ _ _ R2
    (change_justification testProps text
       (onChangeExtensionDays digits
          (setShowExtendModal true (initial claimedIssue))) [] eq_refl)).
Qed.

Lemma extendModal_reachable (digits text : jsstring) :
  reachable testProps claimedIssue
    (extendModal (or_num (parseInt digits) (Num 1)) text).
Proof. exists []. apply extendModal_run. Qed.


(** The run of the fixtures in which a pull request and an extension are
    under way together. *)
Lemma prAnswered_run :
  run testProps claimedIssue prAnswered [PendingExtend modalFilled].
Proof.
  pose proof (run_initial testProps claimedIssue) as R0.
  pose proof (run_step _ _ _ _ _ _ R0
    (click_toggle_pr_form testProps (initial claimedIssue) [] eq_refl)) as R1.
  pose proof (run_step _ _ _ _ _ _ R1
    (pr_form_submit testProps formShown [] eq_refl)) as R2.
  pose proof (run_step _ _ _ _ _ _ R2
    (click_extend_deadline testProps formShown [PendingSubmit formShown]
       eq_refl eq_refl)) as R3.
  pose proof (run_step _ _ _ _ _ _ R3
    (change_justification testProps
       (lit "I need more time to complete the work")
       (setShowExtendModal true formShown) [PendingSubmit formShown]
       eq_refl)) as R4.
  pose proof (run_step _ _ _ _ _ _ R4
    (click_extend testProps modalFilled [PendingSubmit formShown]
       eq_refl eq_refl)) as R5.
  exact (run_step _ _ _ _ _ _ R5
    (pr_form_success testProps mockSubmissionResult formShown extendAsked
       [PendingExtend modalFilled] [] eq_refl)).
Qed.

(** C6: the code at the failing input.  The holder submits a pull
    request and, before its answer, asks for an extension; the pull
    request is answered first and completes the issue; the successful
    extension, answered second, writes the issue of the render it was
    asked in with the new expiry, and with it the status goes from
    completed back to claimed. *)
Theorem extend_answer_restores_claimed :
  reachable testProps claimedIssue prAnswered ∧
  get (issue prAnswered) "status" = JStr (lit "completed") ∧
  hasSubmittedPR prAnswered = true ∧
  step testProps (prAnswered, [PendingExtend modalFilled])
                 (extendAnswered, []) ∧
  reachable testProps claimedIssue extendAnswered ∧
  truthy (get mockExtensionResult "success") = true ∧
  get (issue extendAnswered) "claim_expires_at"
    = JStr (lit "2024-01-15T00:00:00Z") ∧
  get (issue extendAnswered) "status" = JStr (lit "claimed") ∧
  get (issue extendAnswered) "status" ≠ get (issue prAnswered) "status" ∧
  hasSubmittedPR extendAnswered = true.
Proof.
  assert (Hstep : step testProps (prAnswered, [PendingExtend modalFilled])
                    (extendAnswered, [])).
  { exact (extend_settles testProps (Resolved mockExtensionResult)
             modalFilled prAnswered [] []). }
  split; [exists [PendingExtend modalFilled]; apply prAnswered_run|].
  split; [reflexivity|]. split; [reflexivity|]. split; [exact Hstep|].
  split; [exists []; exact (run_step _ _ _ _ _ _ prAnswered_run Hstep)|].
  split; [reflexivity|]. split; [reflexivity|]. split; [reflexivity|].
  split; [|reflexivity]. intros H. vm_compute in H. discriminate.
Qed.

(** C7, as stated, fails: an expiry delivered in a property named
    [new_expires_at] is not read; the issue keeps its old expiry. *)
Lemma extend_result_field_counterexample :
  let st := extendModal (Num 7) (lit "I need more time to complete the work") in
  let st' := (handleExtend testProps (Resolved newExpiresAtResult) st).1 in
  truthy (get newExpiresAtResult "success") = true ∧
  get newExpiresAtResult "new_expires_at" = JStr (lit "2024-01-15T00:00:00Z") ∧
  get (issue st) "claim_expires_at" = JStr (lit "2024-01-08T00:00:00Z") ∧
  get (issue st') "claim_expires_at" = JStr (lit "2024-01-08T00:00:00Z") ∧
  get (issue st') "claim_expires_at" ≠ get newExpiresAtResult "new_expires_at".
Proof. vm_compute. repeat split. discriminate. Qed.

(** C7, amended: the result of a successful extend delivers the new
    expiry in the property [new_expiration] (as [ExtensionResult] declares
    it), and [handleExtend] stores that value as the issue's
    [claim_expires_at]; a result without that property leaves the expiry
    as it was. *)
Theorem handleExtend_reads_new_expiration (p : props)
    (result : gmap string jsval) (st : state) :
  (10 <= length (justification st))%nat ->
  truthy (get result "success") = true ->
  let st' := (handleExtend p (Resolved result) st).1 in
  (∀ expiry, get result "new_expiration" = JStr expiry -> expiry ≠ [] ->
     get (issue st') "claim_expires_at" = JStr expiry) ∧
  (result !! "new_expiration" = None ->
     get (issue st') "claim_expires_at" = get (issue st) "claim_expires_at").
Proof.
  intros Hlen Hok st'. subst st'.
  rewrite handleExtend_success, get_insert_eq by done. split.
  - intros expiry -> Hne. by apply js_or_truthy, truthy_str.
  - intros Hnone. apply js_or_falsy. unfold get. by rewrite Hnone.
Qed.

(** The amended C7 on the result of the test "extends deadline with valid
    justification". *)
Lemma handleExtend_reads_new_expiration_witness :
  get (issue (handleExtend testProps (Resolved mockExtensionResult)
                (extendModal (Num 7)
                   (lit "I need more time to complete the work"))).1)
    "claim_expires_at" = JStr (lit "2024-01-15T00:00:00Z").
Proof.
  apply (handleExtend_reads_new_expiration testProps mockExtensionResult
           (extendModal (Num 7) (lit "I need more time to complete the work"))).
  - simpl; lia.
  - reflexivity.
  - reflexivity.
  - discriminate.
Defined.

(** ** Claiming and releasing *)

(** C4, as stated, fails: a successful claim need not come with its time
    stamps.  On a result that has [success] and neither [claimed_at] nor
    [claim_expires_at], the issue is claimed with the time of the browser
    as [claimed_at] and with no [claim_expires_at]. *)
Lemma handleClaim_bare_counterexample :
  let r := handleClaim testProps nowISO (Resolved bareClaimResult)
             (initial mockIssue) in
  get (issue (initial mockIssue)) "status" = JStr (lit "available") ∧
  truthy (get bareClaimResult "success") = true ∧
  get bareClaimResult "claimed_at" = JUndefined ∧
  get bareClaimResult "claim_expires_at" = JUndefined ∧
  get (issue r.1) "status" = JStr (lit "claimed") ∧
  get (issue r.1) "claimed_at" = JStr nowISO ∧
  get (issue r.1) "claim_expires_at" = JNull ∧
  present (get (issue r.1) "claim_expires_at") = false.
Proof. vm_compute. by repeat split. Qed.

(** C4, amended: on an available issue, a claim the API reports as
    successful makes the issue claimed by the current user, whatever the
    page has become when the answer comes.  The time stamps of the result
    are optional: a [claimed_at] or [claim_expires_at] it carries becomes
    the issue's; without [claimed_at] the issue gets the current time of
    the browser, without [claim_expires_at] it gets [null].  Nothing else
    of the issue changes; the call made is
    [claimIssue(issue.id, currentUserId, accessToken)], and the issue's
    page on GitHub is opened. *)
Theorem handleClaim_success (p : props) (now : jsstring)
    (result : gmap string jsval) (render st : state) :
  get (issue render) "status" = JStr (lit "available") ->
  truthy (get result "success") = true ->
  let r := handleClaim_resume p now (Resolved result) render st in
  get (issue r.1) "status" = JStr (lit "claimed") ∧
  get (issue r.1) "claimed_by" = JNum (currentUserId p) ∧
  (∀ at_, get result "claimed_at" = JStr at_ -> at_ ≠ [] ->
     get (issue r.1) "claimed_at" = JStr at_) ∧
  (∀ expires, get result "claim_expires_at" = JStr expires -> expires ≠ [] ->
     get (issue r.1) "claim_expires_at" = JStr expires) ∧
  (result !! "claimed_at" = None ->
     get (issue r.1) "claimed_at" = JStr now) ∧
  (result !! "claim_expires_at" = None ->
     get (issue r.1) "claim_expires_at" = JNull) ∧
  (∀ k, k ∉ ["status"; "claimed_by"; "claimed_at"; "claim_expires_at"] ->
        issue r.1 !! k = issue render !! k) ∧
  (handleClaim_begin p render).2 =
    [ClaimIssue (get (issue render) "id") (currentUserId p) (accessToken p)] ∧
  r.2 = [WindowOpen (get (issue render) "github_url")] ∧
  (handleClaim p now (Resolved result) render).1 =
    (handleClaim_resume p now (Resolved result) render
       (handleClaim_begin p render).1).1.
Proof.
  intros _ Hok r. subst r.
  rewrite handleClaim_halves.
  unfold handleClaim_resume, handleClaim_begin. rewrite Hok.
  cbn [fst snd issue setIssue setIsLoading setError]. simpl_get.
  split; [done|]. split; [done|].
  split; [intros at_ -> Hne; by apply js_or_truthy, truthy_str|].
  split; [intros expires -> Hne; by apply js_or_truthy, truthy_str|].
  split; [intros Hnone; unfold get at 1; by rewrite Hnone|].
  split; [intros Hnone; unfold get at 1; by rewrite Hnone|].
  split; [|done].
  intros k Hk.
  rewrite !lookup_insert_ne; [done|..]; intros <-; apply Hk; set_solver.
Qed.

(** The amended C4 on the fixtures of the test "claims issue and redirects
    to GitHub", and on a result with no time stamps. *)
Lemma handleClaim_success_witness :
  get (issue (claimAnswered mockClaimResult)) "status" = JStr (lit "claimed") ∧
  get (issue (claimAnswered mockClaimResult)) "claimed_by" = JNum (Num 1) ∧
  get (issue (claimAnswered mockClaimResult)) "claimed_at"
    = JStr (lit "2024-01-01T00:00:00Z") ∧
  get (issue (claimAnswered mockClaimResult)) "claim_expires_at"
    = JStr (lit "2024-01-08T00:00:00Z") ∧
  get (issue (claimAnswered bareClaimResult)) "claimed_at" = JStr nowISO ∧
  get (issue (claimAnswered bareClaimResult)) "claim_expires_at" = JNull.
Proof.
  destruct (handleClaim_success testProps nowISO mockClaimResult
    (initial mockIssue) claimAsked eq_refl eq_refl)
    as (H1 & H2 & H3 & H4 & _).
  destruct (handleClaim_success testProps nowISO bareClaimResult
    (initial mockIssue) claimAsked eq_refl eq_refl)
    as (_ & _ & _ & _ & H5 & H6 & _).
  split; [exact H1|]. split; [exact H2|].
  split; [by apply H3|]. split; [by apply H4|].
  split; [by apply H5|by apply H6].
Defined.

(** C5: on a claimed issue, a release by its holder that the API reports
    as successful makes the issue available and clears [claimed_by],
    [claimed_at] and [claim_expires_at]; nothing else of the issue
    changes. *)
Theorem handleRelease_success (p : props) (result : gmap string jsval)
    (st : state) :
  get (issue st) "status" = JStr (lit "claimed") ->
  isClaimedByCurrentUser p st = true ->
  truthy (get result "success") = true ->
  let r := handleRelease p true (Resolved result) st in
  get (issue r.1) "status" = JStr (lit "available") ∧
  get (issue r.1) "claimed_by" = JNull ∧
  get (issue r.1) "claimed_at" = JNull ∧
  get (issue r.1) "claim_expires_at" = JNull ∧
  present (get (issue r.1) "claimed_by") = false ∧
  present (get (issue r.1) "claimed_at") = false ∧
  present (get (issue r.1) "claim_expires_at") = false ∧
  (∀ k, k ∉ ["status"; "claimed_by"; "claimed_at"; "claim_expires_at"] ->
        issue r.1 !! k = issue st !! k) ∧
  r.2 = [Confirm;
         ReleaseIssue (get (issue st) "id") (currentUserId p) (accessToken p)].
Proof.
  intros _ _ Hok r. subst r.
  unfold handleRelease. simpl. rewrite Hok. simpl.
  simpl_get.
  repeat split.
  intros k Hk.
  rewrite !lookup_insert_ne; [done|..]; intros <-; apply Hk; set_solver.
Qed.

(** C5 on the fixtures of the test "releases issue". *)
Lemma handleRelease_success_witness :
  let r := handleRelease testProps true (Resolved mockReleaseResult)
             (initial claimedIssue) in
  get (issue r.1) "status" = JStr (lit "available") ∧
  present (get (issue r.1) "claimed_by") = false ∧
  present (get (issue r.1) "claimed_at") = false ∧
  present (get (issue r.1) "claim_expires_at") = false.
Proof.
  destruct (handleRelease_success testProps mockReleaseResult
    (initial claimedIssue)) as (H1 & _ & _ & _ & H2 & H3 & H4 & _);
    try reflexivity.
  cbv zeta. by rewrite H1, H2, H3, H4.
Defined.

(** ** The claim fields along the life of the page *)

Section Invariant.
Implicit Types (st : state) (i : gmap string jsval).

Lemma holder_matches_status_claimed i v w x :
  holder_matches_status
    (<["claim_expires_at" := x]>
     (<["claimed_at" := w]>
     (<["claimed_by" := JNum v]>
     (<["status" := JStr (lit "claimed")]> i)))).
Proof.
  unfold holder_matches_status. simpl_get.
  split; [done|]. intros H. vm_compute in H. discriminate.
Qed.

Lemma holder_matches_status_released i :
  holder_matches_status
    (<["claim_expires_at" := JNull]>
     (<["claimed_at" := JNull]>
     (<["claimed_by" := JNull]>
     (<["status" := JStr (lit "available")]> i)))).
Proof.
  unfold holder_matches_status. simpl_get.
  split; [|done]. intros H. vm_compute in H. discriminate.
Qed.

Lemma holder_matches_status_deadline i x :
  holder_matches_status i ->
  holder_matches_status (<["claim_expires_at" := x]> i).
Proof.
  unfold holder_matches_status. by rewrite !get_insert_ne.
Qed.

Lemma holder_matches_status_completed i :
  holder_matches_status (<["status" := JStr (lit "completed")]> i).
Proof.
  unfold holder_matches_status. rewrite !get_insert_eq.
  split; intros H; vm_compute in H; discriminate.
Qed.

Lemma holder_follows_status_claimed i v w x :
  holder_follows_status
    (<["claim_expires_at" := x]>
     (<["claimed_at" := w]>
     (<["claimed_by" := JNum v]>
     (<["status" := JStr (lit "claimed")]> i)))).
Proof. unfold holder_follows_status. simpl_get. split; [done|by left]. Qed.

Lemma holder_follows_status_released i :
  holder_follows_status
    (<["claim_expires_at" := JNull]>
     (<["claimed_at" := JNull]>
     (<["claimed_by" := JNull]>
     (<["status" := JStr (lit "available")]> i)))).
Proof.
  unfold holder_follows_status. simpl_get.
  split; [|done]. intros H. vm_compute in H. discriminate.
Qed.

Lemma holder_follows_status_deadline i x :
  holder_follows_status i ->
  holder_follows_status (<["claim_expires_at" := x]> i).
Proof.
  unfold holder_follows_status. by rewrite !get_insert_ne.
Qed.

Lemma holder_follows_status_completed i :
  holder_follows_status i ->
  holder_follows_status (<["status" := JStr (lit "completed")]> i).
Proof.
  unfold holder_follows_status. rewrite get_insert_eq, get_insert_ne by done.
  intros _. split; [|by right]. intros H. vm_compute in H. discriminate.
Qed.

End Invariant.

(** A property of issue objects that the four writes of the page keep
    holds throughout: of the issue of the page and of the issue of every
    render that a request under way will write from. *)
Section Throughout.
Context (p : props) (P : gmap string jsval -> Prop).
Hypothesis P_claimed : ∀ i v w x,
  P (<["claim_expires_at" := x]>
     (<["claimed_at" := w]>
     (<["claimed_by" := JNum v]>
     (<["status" := JStr (lit "claimed")]> i)))).
Hypothesis P_released : ∀ i,
  P (<["claim_expires_at" := JNull]>
     (<["claimed_at" := JNull]>
     (<["claimed_by" := JNull]>
     (<["status" := JStr (lit "available")]> i)))).
Hypothesis P_deadline : ∀ i x, P i -> P (<["claim_expires_at" := x]> i).
Hypothesis P_completed : ∀ i,
  P i -> P (<["status" := JStr (lit "completed")]> i).

Lemma step_holds_throughout pg pg' :
  step p pg pg' ->
  holds_throughout P pg.1 pg.2 -> holds_throughout P pg'.1 pg'.2.
Proof.
  unfold holds_throughout.
  intros Hstep [Hi Hfl].
  destruct Hstep; cbn [fst snd] in *;
    rewrite ?Forall_app, ?Forall_cons in *;
    unfold handleClaim_begin, handleClaim_resume, handleRelease_begin,
      handleRelease_resume, handleExtend_begin, handleExtend_resume,
      handlePRSuccess, await;
    repeat case_match; cbn;
    rewrite ?Forall_cons; cbn; intuition auto.
Qed.

Lemma run_holds_throughout initialIssue st fl :
  P initialIssue -> run p initialIssue st fl -> holds_throughout P st fl.
Proof.
  intros Hinit. induction 1 as [|st fl st' fl' _ IH Hstep].
  - split; [done|apply Forall_nil_2].
  - apply (step_holds_throughout (st, fl) (st', fl') Hstep IH).
Qed.

End Throughout.

Section Holder.
Context (p : props).

(** Along the events of the page a claimed issue keeps its holder and an
    available one has none. *)
Lemma reachable_keeps_holder initialIssue st :
  holder_matches_status initialIssue ->
  reachable p initialIssue st ->
  holder_matches_status (issue st).
Proof.
  intros Hinit [fl Hrun].
  eapply (run_holds_throughout p holder_matches_status); eauto using
    holder_matches_status_claimed, holder_matches_status_released,
    holder_matches_status_deadline, holder_matches_status_completed.
Qed.

Lemma run_keeps_following initialIssue st fl :
  holder_follows_status initialIssue ->
  run p initialIssue st fl ->
  holds_throughout holder_follows_status st fl.
Proof.
  intros Hinit Hrun.
  eapply (run_holds_throughout p holder_follows_status); eauto using
    holder_follows_status_claimed, holder_follows_status_released,
    holder_follows_status_deadline, holder_follows_status_completed.
Qed.

(** The form is only submitted by the holder. *)
Lemma step_submitted_by_holder pg pg' :
  step p pg pg' ->
  submitted_by_holder p pg.2 -> submitted_by_holder p pg'.2.
Proof.
  unfold submitted_by_holder. intros Hstep Hfl.
  destruct Hstep; cbn [fst snd] in *;
    rewrite ?Forall_app, ?Forall_cons in *; unfold await;
    repeat case_match; rewrite ?Forall_cons; try (intuition auto; fail).
  split; [|done]. unfold ownControls in *.
  by repeat match goal with
            | H : _ && _ = true |- _ => apply andb_prop in H as [??]
            end.
Qed.

Lemma run_submitted_by_holder initialIssue st fl :
  run p initialIssue st fl -> submitted_by_holder p fl.
Proof.
  induction 1 as [|st fl st' fl' _ IH Hstep]; [apply Forall_nil_2|].
  apply (step_submitted_by_holder (st, fl) (st', fl') Hstep IH).
Qed.

End Holder.

(** The runs of the fixtures. *)
Lemma claimAnswered_run (result : gmap string jsval) :
  run testProps mockIssue (claimAnswered result) [].
Proof.
  pose proof (run_initial testProps mockIssue) as R0.
  pose proof (run_step _ _ _ _ _ _ R0
    (click_solve_it testProps (initial mockIssue) [] eq_refl eq_refl)) as R1.
  exact (run_step _ _ _ _ _ _ R1
    (claim_settles testProps nowISO (Resolved result) (initial mockIssue)
       claimAsked [] [])).
Qed.

Lemma claimedFormShown_run :
  run testProps mockIssue claimedFormShown [PendingSubmit claimedFormShown].
Proof.
  pose proof (claimAnswered_run mockClaimResult) as R0.
  pose proof (run_step _ _ _ _ _ _ R0
    (click_toggle_pr_form testProps (claimAnswered mockClaimResult) []
       eq_refl)) as R1.
  exact (run_step _ _ _ _ _ _ R1
    (pr_form_submit testProps claimedFormShown [] eq_refl)).
Qed.

Lemma prCompleted_run : run testProps mockIssue prCompleted [].
Proof.
  exact (run_step _ _ _ _ _ _ claimedFormShown_run
    (pr_form_success testProps mockSubmissionResult claimedFormShown
       claimedFormShown [] [] eq_refl)).
Qed.

Lemma extendedAfterRelease_run :
  run testProps claimedIssue extendedAfterRelease [].
Proof.
  pose proof (extendModal_run (lit "7") (lit "ten chars.")) as R0.
  pose proof (run_step _ _ _ _ _ _ R0
    (click_release testProps true (extendModal (Num 7) (lit "ten chars."))
       [] eq_refl eq_refl)) as R1.
  pose proof (run_step _ _ _ _ _ _ R1
    (release_settles testProps (Resolved mockReleaseResult)
       (extendModal (Num 7) (lit "ten chars."))
       (handleRelease_begin testProps true
          (extendModal (Num 7) (lit "ten chars."))).1.1 [] [])) as R2.
  pose proof (run_step _ _ _ _ _ _ R2
    (click_extend testProps releasedWithModal [] eq_refl eq_refl)) as R3.
  exact (run_step _ _ _ _ _ _ R3
    (extend_settles testProps (Resolved mockExtensionResult)
       releasedWithModal (handleExtend_begin testProps releasedWithModal).1.1
       [] [])).
Qed.

(** C3, as stated, fails, on both equivalences and in both directions of
    the second.  After a claim and the submission of a pull request the
    issue is completed and still has its holder.  After a claim whose
    result carries no [claim_expires_at] the issue has a holder and no
    expiry.  After a release with the extend modal left open and an
    extension asked from it, the issue has an expiry and no holder. *)
Lemma claim_fields_counterexample :
  claim_fields_consistent mockIssue ∧
  claim_fields_consistent claimedIssue ∧
  (reachable testProps mockIssue prCompleted ∧
   present (get (issue prCompleted) "claimed_by") = true ∧
   get (issue prCompleted) "status" = JStr (lit "completed") ∧
   ¬ claim_fields_consistent (issue prCompleted)) ∧
  (reachable testProps mockIssue (claimAnswered bareClaimResult) ∧
   present (get (issue (claimAnswered bareClaimResult)) "claimed_by") = true ∧
   present (get (issue (claimAnswered bareClaimResult)) "claim_expires_at")
     = false ∧
   ¬ claim_fields_consistent (issue (claimAnswered bareClaimResult))) ∧
  (reachable testProps claimedIssue extendedAfterRelease ∧
   present (get (issue extendedAfterRelease) "claim_expires_at") = true ∧
   present (get (issue extendedAfterRelease) "claimed_by") = false ∧
   ¬ claim_fields_consistent (issue extendedAfterRelease)).
Proof.
  split; [|split; [|split; [|split]]].
  - split; split; intros H; vm_compute in H; discriminate.
  - split; split; intros H; vm_compute in H; try discriminate; reflexivity.
  - split; [exists []; apply prCompleted_run|].
    split; [reflexivity|]. split; [reflexivity|].
    intros [[H _] _].
    assert (Hc : JStr (lit "completed") = JStr (lit "claimed"))
      by (apply H; reflexivity).
    vm_compute in Hc. discriminate.
  - split; [exists []; apply claimAnswered_run|].
    split; [reflexivity|]. split; [reflexivity|].
    intros [_ [_ H]].
    assert (Hc : false = true) by (apply H; reflexivity).
    discriminate.
  - split; [exists []; apply extendedAfterRelease_run|].
    split; [reflexivity|]. split; [reflexivity|].
    intros [_ [H _]].
    assert (Hc : false = true) by (apply H; reflexivity).
    discriminate.
Qed.

(** C3, amended: from an initial issue of which it holds, every state of
    the page keeps this: a claimed issue has its [claimed_by], and an issue
    with a [claimed_by] is claimed or completed.  The completion of a pull
    request, whenever its answer comes, sets the status to completed and
    keeps the holder, who is the current user.  ([claim_expires_at] is
    tied to [claimed_by] in neither direction.) *)
Theorem reachable_holder_follows_status (p : props)
    (initialIssue : gmap string jsval) (st : state) (fl : list pending) :
  holder_follows_status initialIssue ->
  run p initialIssue st fl ->
  holder_follows_status (issue st) ∧
  ∀ result render, PendingSubmit render ∈ fl ->
    let st' := handlePRSuccess render result st in
    get (issue st') "status" = JStr (lit "completed") ∧
    get (issue st') "claimed_by" = JNum (currentUserId p) ∧
    present (get (issue st') "claimed_by") = true ∧
    holder_follows_status (issue st').
Proof.
  intros Hinit Hrun.
  destruct (run_keeps_following p _ _ _ Hinit Hrun) as [Hst Hfl].
  split; [done|]. intros result render Hin st'. subst st'.
  pose proof (run_submitted_by_holder p _ _ _ Hrun) as Hsub.
  unfold submitted_by_holder in Hsub.
  rewrite Forall_forall in Hfl, Hsub.
  specialize (Hfl _ Hin). specialize (Hsub _ Hin). cbn in Hfl, Hsub.
  apply strict_eq_num_true in Hsub.
  unfold handlePRSuccess. cbn.
  rewrite get_insert_eq, get_insert_ne, Hsub by done.
  split; [done|]. split; [done|]. split; [done|].
  by apply holder_follows_status_completed.
Qed.

(** The amended C3 on the claim and the pull request of the fixtures. *)
Lemma reachable_holder_follows_status_witness :
  holder_follows_status (issue claimedFormShown) ∧
  get (issue prCompleted) "status" = JStr (lit "completed") ∧
  get (issue prCompleted) "claimed_by" = JNum (Num 1).
Proof.
  destruct (reachable_holder_follows_status testProps mockIssue
    claimedFormShown [PendingSubmit claimedFormShown]) as [H1 H2].
  - split; intros H; vm_compute in H; discriminate.
  - apply claimedFormShown_run.
  - split; [exact H1|].
    destruct (H2 mockSubmissionResult claimedFormShown) as (H3 & H4 & _);
      [apply list_elem_of_here|].
    by split.
Defined.

(** ** The extension-days field *)

Lemma or_num_one_cases (n : jsnum) :
  (n = NaN ∨ n = Num 0 -> or_num n (Num 1) = Num 1) ∧
  (∀ z, n = Num z -> z ≠ 0 -> or_num n (Num 1) = Num z) ∧
  or_num n (Num 1) ≠ Num 0 ∧ or_num n (Num 1) ≠ NaN.
Proof.
  unfold or_num. destruct n as [|z]; simpl.
  - repeat split; [|done..]. by intros z [=].
  - destruct (Z.eqb_spec z 0) as [->|Hz]; simpl.
    + repeat split; [|done..]. by intros z [= <-].
    + repeat split; [| |by intros [=]|done].
      * by intros [[=]|[=]].
      * by intros z' [= <-].
Qed.

(** Every state of the page has a number of days that is neither 0 nor
    [NaN]. *)
Lemma step_extensionDays (p : props) pg pg' :
  step p pg pg' ->
  extensionDays pg.1 ≠ Num 0 ∧ extensionDays pg.1 ≠ NaN ->
  extensionDays pg'.1 ≠ Num 0 ∧ extensionDays pg'.1 ≠ NaN.
Proof.
  intros Hstep Hdays.
  destruct Hstep; cbn [fst snd] in *;
    unfold handleClaim_resume, handleRelease_begin, handleRelease_resume,
      handleExtend_begin, handleExtend_resume;
    repeat case_match; try exact Hdays.
  apply or_num_one_cases.
Qed.

Lemma reachable_extensionDays (p : props) (initialIssue : gmap string jsval)
    (st : state) :
  reachable p initialIssue st ->
  extensionDays st ≠ Num 0 ∧ extensionDays st ≠ NaN.
Proof.
  intros [fl Hrun]. induction Hrun as [|st fl st' fl' _ IH Hstep]; [done|].
  apply (step_extensionDays p (st, fl) (st', fl') Hstep IH).
Qed.

(** C9, as stated, fails: the days field does not always give a positive
    number.  On the input "-5" the requested days become -5, and the
    extend request is sent with them. *)
Lemma extension_days_counterexample :
  let st := extendModal (or_num (parseInt (lit "-5")) (Num 1))
              (lit "ten chars.") in
  parseInt (lit "-5") = Num (-5) ∧
  reachable testProps claimedIssue st ∧
  extensionDays st = Num (-5) ∧
  ¬ positive_num (extensionDays st) ∧
  (handleExtend testProps (Resolved mockExtensionResult) st).2 =
    [ExtendClaimDeadline (JNum (Num 1)) (Num 1) (Num (-5))
       (lit "ten chars.") (lit "test-token")].
Proof.
  cbv zeta. split; [reflexivity|].
  split; [apply extendModal_reachable|].
  split; [reflexivity|]. split; [|reflexivity].
  vm_compute. discriminate.
Qed.

(** C9, amended: for every input string of the days field, an integer
    parse that is 0 or not a number makes the requested days 1, and any
    other parse is taken as it is (negative values and values above 14
    too); so the days are never 0, in no state of the page, and no extend
    request with [days = 0] is sent. *)
Theorem extension_days_never_zero :
  (∀ (value : jsstring) (st : state),
     let days := extensionDays (onChangeExtensionDays value st) in
     (parseInt value = NaN ∨ parseInt value = Num 0 -> days = Num 1) ∧
     (∀ z, parseInt value = Num z -> z ≠ 0 -> days = Num z) ∧
     days ≠ Num 0 ∧ days ≠ NaN) ∧
  (∀ (p : props) (initialIssue : gmap string jsval) (st : state)
     (api : outcome),
     reachable p initialIssue st ->
     ∀ issueId userId days text token,
       ExtendClaimDeadline issueId userId days text token
         ∈ (handleExtend p api st).2 ->
       days ≠ Num 0 ∧ days ≠ NaN).
Proof.
  split.
  - intros value st. apply or_num_one_cases.
  - intros p initialIssue st api Hreach issueId userId days text token Hin.
    assert (days = extensionDays st) as ->;
      [|by eapply reachable_extensionDays].
    unfold handleExtend in Hin.
    destruct (length (justification st) <? 10)%nat; [by inversion Hin|].
    assert (Hcall : ExtendClaimDeadline issueId userId days text token
                      ∈ [extend_request p st]).
    { destruct api as [result|err]; [|exact Hin].
      by destruct (truthy (get result "success")). }
    apply list_elem_of_singleton in Hcall. by injection Hcall.
Qed.

(** The amended C9 on the inputs "0", "" and "15", and on the request
    sent after "0" was entered. *)
Lemma extension_days_never_zero_witness :
  extensionDays (onChangeExtensionDays (lit "0") (initial claimedIssue))
    = Num 1 ∧
  extensionDays (onChangeExtensionDays (lit "") (initial claimedIssue))
    = Num 1 ∧
  extensionDays (onChangeExtensionDays (lit "15") (initial claimedIssue))
    = Num 15 ∧
  Num 1 ≠ Num 0.
Proof.
  pose proof extension_days_never_zero as [Hfield Hpage].
  split; [|split; [|split]].
  - apply (proj1 (Hfield (lit "0") (initial claimedIssue))). by right.
  - apply (proj1 (Hfield (lit "") (initial claimedIssue))). by left.
  - by apply (proj1 (proj2 (Hfield (lit "15") (initial claimedIssue)))).
  - eapply (Hpage testProps claimedIssue
              (extendModal (or_num (parseInt (lit "0")) (Num 1))
                 (lit "ten chars."))
              (Resolved mockExtensionResult)).
    + apply extendModal_reachable.
    + vm_compute. apply list_elem_of_here.
Defined.

(** ** The countdown *)


Lemma lit_cons a s : lit (String a s) = Ascii.N_of_ascii a :: lit s.
Proof. reflexivity. Qed.

Lemma no_minus_app s1 s2 : no_minus s1 -> no_minus s2 -> no_minus (s1 ++ s2).
Proof. unfold no_minus. intros H1 H2. by apply Forall_app. Qed.

Lemma no_minus_uint (d : Decimal.uint) :
  no_minus (lit (NilEmpty.string_of_uint d)).
Proof.
  unfold no_minus.
  induction d; cbn [NilEmpty.string_of_uint]; rewrite ?lit_cons;
    [apply Forall_nil_2|..]; (apply Forall_cons_2; [by vm_compute|exact IHd]).
Qed.

Lemma no_minus_show_num z : 0 <= z -> no_minus (show_num (Num z)).
Proof.
  intros Hz. unfold show_num. destruct z as [|q|q]; [| |lia].
  - vm_compute. by repeat constructor.
  - cbn [Z.to_int NilZero.string_of_int NilZero.string_of_uint].
    destruct (Pos.to_uint q) eqn:Hq; unfold NilZero.string_of_uint;
      [vm_compute; by repeat constructor|..]; apply no_minus_uint.
Qed.

Lemma no_minus_lit_d : no_minus (lit "d ").
Proof. vm_compute. by repeat constructor. Qed.

Lemma no_minus_lit_h : no_minus (lit "h").
Proof. vm_compute. by repeat constructor. Qed.

Lemma no_minus_lit_h_ : no_minus (lit "h ").
Proof. vm_compute. by repeat constructor. Qed.

Lemma no_minus_lit_m : no_minus (lit "m").
Proof. vm_compute. by repeat constructor. Qed.

(** Bounds of the three components for a positive difference. *)
Lemma components_bounds diff :
  0 < diff ->
  0 <= diff / 86400000 ∧
  0 <= diff mod 86400000 / 3600000 < 24 ∧
  0 <= diff mod 3600000 / 60000 < 60.
Proof.
  intros Hd.
  pose proof (Z.mod_pos_bound diff 86400000 ltac:(lia)) as Hday.
  pose proof (Z.mod_pos_bound diff 3600000 ltac:(lia)) as Hhour.
  repeat split.
  - apply Z.div_pos; lia.
  - apply Z.div_pos; lia.
  - apply Z.div_lt_upper_bound; lia.
  - apply Z.div_pos; lia.
  - apply Z.div_lt_upper_bound; lia.
Qed.

(** Without a date to count down to, nothing is expired and the text is
    "NaNm". *)
Lemma calculateTimeRemaining_NaN now t :
  calculateTimeRemaining now NaN t = setTimeRemaining (lit "NaNm") t.
Proof. by destruct now. Qed.

(** C10: for every expiry time stamp and every current time the countdown
    has a value.  When the expiry is not strictly in the future the text is
    "Expired" and the timer is in the expired state.  Otherwise the text
    is made of the days, hours and minutes of the remaining time, the
    first of which that is positive leading: none of them is negative
    (hours stay below 24, minutes below 60), the text has no minus sign,
    and the expired flag is left as it was. *)
Theorem calculateTimeRemaining_total_nonnegative (now expiry : Z) (t : timer) :
  let t' := calculateTimeRemaining (Num now) (Num expiry) t in
  let diff := expiry - now in
  let days := diff / 86400000 in
  let hours := diff mod 86400000 / 3600000 in
  let minutes := diff mod 3600000 / 60000 in
  (expiry <= now ->
     timeRemaining t' = lit "Expired" ∧ isExpired t' = true) ∧
  (now < expiry ->
     0 <= days ∧ 0 <= hours < 24 ∧ 0 <= minutes < 60 ∧
     timeRemaining t' =
       (if 0 <? days then
          show_num (Num days) ++ lit "d " ++ show_num (Num hours) ++ lit "h"
        else if 0 <? hours then
          show_num (Num hours) ++ lit "h " ++ show_num (Num minutes) ++ lit "m"
        else show_num (Num minutes) ++ lit "m") ∧
     no_minus (timeRemaining t') ∧
     isExpired t' = isExpired t).
Proof.
  intros t' diff days hours minutes. subst t'.
  unfold calculateTimeRemaining.
  cbn [num_sub num_le num_floor_div num_rem num_gt].
  change (1000 * 60 * 60 * 24) with 86400000.
  change (1000 * 60 * 60) with 3600000.
  change (1000 * 60) with 60000.
  fold diff. split.
  - intros Hle. by rewrite (proj2 (Z.leb_le diff 0)) by (unfold diff; lia).
  - intros Hlt. assert (0 < diff) as Hpos by (unfold diff; lia).
    rewrite (proj2 (Z.leb_gt diff 0)) by done.
    rewrite !Z.rem_mod_nonneg by lia.
    fold days hours minutes.
    destruct (components_bounds diff Hpos) as (Hd & Hh & Hm).
    fold days hours minutes in Hd, Hh, Hm.
    repeat split; try lia.
    + by destruct (0 <? days), (0 <? hours).
    + destruct (0 <? days), (0 <? hours); cbn [timeRemaining setTimeRemaining];
        repeat apply no_minus_app;
        auto using no_minus_show_num, no_minus_lit_d, no_minus_lit_h,
                   no_minus_lit_h_, no_minus_lit_m with lia.
    + by destruct (0 <? days), (0 <? hours).
Qed.

(** C10 one second after the expiry, and 2 days, 5 hours and 30 minutes
    before it. *)
Lemma calculateTimeRemaining_total_nonnegative_witness :
  timeRemaining (calculateTimeRemaining (Num 1704067201000)
                   (Num 1704067200000) initial_timer) = lit "Expired" ∧
  isExpired (calculateTimeRemaining (Num 1704067201000)
               (Num 1704067200000) initial_timer) = true ∧
  timeRemaining (calculateTimeRemaining (Num 1704067200000)
                   (Num (1704067200000 + 192600000)) initial_timer)
    = lit "2d 5h" ∧
  timeRemaining (calculateTimeRemaining (Num 1704067200000)
                   (Num (1704067200000 + 19800000)) initial_timer)
    = lit "5h 30m" ∧
  timeRemaining (calculateTimeRemaining (Num 1704067200000)
                   (Num (1704067200000 + 1800000)) initial_timer)
    = lit "30m".
Proof.
  pose proof (proj1 (calculateTimeRemaining_total_nonnegative
    1704067201000 1704067200000 initial_timer)) as Hpast.
  pose proof (λ e, proj2 (calculateTimeRemaining_total_nonnegative
    1704067200000 e initial_timer)) as Hfuture.
  cbv zeta in Hpast, Hfuture.
  destruct Hpast as [H1 H2]; [lia|].
  destruct (Hfuture (1704067200000 + 192600000)) as (_ & _ & _ & H3 & _);
    [lia|].
  destruct (Hfuture (1704067200000 + 19800000)) as (_ & _ & _ & H4 & _);
    [lia|].
  destruct (Hfuture (1704067200000 + 1800000)) as (_ & _ & _ & H5 & _);
    [lia|].
  rewrite H1, H2, H3, H4, H5. by vm_compute.
Defined.

(** ** Competing claims on one issue *)

Module ClaimManagerFacts.
Import ClaimManager.

Section Claims.
Context (base_days : difficulty -> Z).

(** Once an issue is claimed, every further claim is turned away and
    leaves it as it is. *)
Lemma claims_on_claimed (calls : list (Z * Z)) (i : issue) :
  istatus i = Claimed ->
  claims base_days calls i =
    (i, map (λ _, Failure AlreadyClaimed) calls).
Proof.
  intros Hst. induction calls as [|[now user] rest IH]; [done|].
  cbn [claims]. unfold claim. rewrite Hst, IH. done.
Qed.

Lemma no_success_among_failures (calls : list (Z * Z)) :
  List.filter is_success (map (λ _, Failure AlreadyClaimed) calls) = [].
Proof. by induction calls. Qed.

Lemma claims_first_wins now user (rest : list (Z * Z)) (i : issue) :
  istatus i = Available ->
  let expires := now + base_days (difficulty_level i) * 86400000 in
  claims base_days ((now, user) :: rest) i =
    ({| istatus := Claimed; claimed_by := Some user; claimed_at := Some now;
        claim_expires_at := Some expires;
        difficulty_level := difficulty_level i |},
     Success now expires :: map (λ _, Failure AlreadyClaimed) rest).
Proof.
  intros Hst expires. cbn [claims]. unfold claim at 1. rewrite Hst.
  by rewrite claims_on_claimed.
Qed.

End Claims.

End ClaimManagerFacts.

(** C8: of the claim calls that compete for one available issue, in
    whatever order the storage layer commits them, exactly one succeeds
    (the first to be committed, who becomes the holder) and every other
    one returns [AlreadyClaimed]. *)
Theorem claims_exactly_one_success (base_days : ClaimManager.difficulty -> Z)
    (calls : list (Z * Z)) (i : ClaimManager.issue) :
  ClaimManager.istatus i = ClaimManager.Available ->
  calls ≠ [] ->
  let r := ClaimManager.claims base_days calls i in
  length r.2 = length calls ∧
  length (List.filter ClaimManager.is_success r.2) = 1%nat ∧
  Forall (λ res, ClaimManager.is_success res = false ->
                 res = ClaimManager.Failure ClaimManager.AlreadyClaimed) r.2 ∧
  (∃ now user rest, calls = (now, user) :: rest ∧
     ClaimManager.istatus r.1 = ClaimManager.Claimed ∧
     ClaimManager.claimed_by r.1 = Some user ∧
     r.2 !! 0%nat = Some (ClaimManager.Success now
       (now + base_days (ClaimManager.difficulty_level i) * 86400000))).
Proof.
  intros Hst Hne r. subst r.
  destruct calls as [|[now user] rest]; [done|].
  rewrite ClaimManagerFacts.claims_first_wins by done.
  cbn [fst snd List.filter ClaimManager.is_success length].
  rewrite ClaimManagerFacts.no_success_among_failures, length_map.
  repeat split.
  - apply Forall_cons_2; [done|].
    apply Forall_forall. intros res Hin _.
    apply list_elem_of_fmap in Hin as (? & -> & _). done.
  - by exists now, user, rest.
Qed.

(** C8 on users 1 and 2 claiming issue 100 at the same instant, in either
    order. *)
Lemma claims_exactly_one_success_witness :
  let i := {| ClaimManager.istatus := ClaimManager.Available;
              ClaimManager.claimed_by := None;
              ClaimManager.claimed_at := None;
              ClaimManager.claim_expires_at := None;
              ClaimManager.difficulty_level := ClaimManager.Easy |} in
  length (List.filter ClaimManager.is_success
            (ClaimManager.claims (λ _, 7) [(0, 1); (0, 2)] i).2) = 1%nat ∧
  length (List.filter ClaimManager.is_success
            (ClaimManager.claims (λ _, 7) [(0, 2); (0, 1)] i).2) = 1%nat.
Proof.
  cbv zeta. split.
  - eapply (claims_exactly_one_success (λ _, 7) [(0, 1); (0, 2)]); done.
  - eapply (claims_exactly_one_success (λ _, 7) [(0, 2); (0, 1)]); done.
Defined.

(** * Further properties of the components *)

(** ** Claims and releases that do not go through *)

(** X1: unless the API reports success, [handleClaim] leaves the issue as
    it was and opens no window; the only call is [claimIssue], the loading
    flag is down again, and the error shown is the message of the thrown
    [Error] (or "Failed to claim issue" for any other thrown value), and
    none at all for a result whose [success] is false. *)
Theorem handleClaim_without_success (p : props) (now : jsstring)
    (api : outcome) (st : state) :
  reports_success api = false ->
  let r := handleClaim p now api st in
  issue r.1 = issue st ∧
  r.2 = [ClaimIssue (get (issue st) "id") (currentUserId p) (accessToken p)] ∧
  isLoading r.1 = false ∧
  error r.1 =
    match api with
    | Rejected err => Some (message_or err (lit "Failed to claim issue"))
    | Resolved _ => None
    end.
Proof.
  intros Hno r. subst r. unfold handleClaim.
  destruct api as [result|err]; [|done].
  simpl in Hno. by rewrite Hno.
Qed.

(** X1 on the rejection of the test "displays error message when claim
    fails". *)
Lemma handleClaim_without_success_witness :
  let r := handleClaim testProps (lit "2024-01-02T00:00:00.000Z")
             (Rejected (ErrorObject (lit "Issue already claimed")))
             (initial mockIssue) in
  issue r.1 = mockIssue ∧ error r.1 = Some (lit "Issue already claimed").
Proof.
  destruct (handleClaim_without_success testProps
    (lit "2024-01-02T00:00:00.000Z")
    (Rejected (ErrorObject (lit "Issue already claimed")))
    (initial mockIssue) eq_refl) as (H1 & _ & _ & H2).
  by split.
Defined.

(** X2: [handleRelease] changes the issue only when the user confirmed and
    the API reported success.  Otherwise the issue is as it was; without
    confirmation nothing at all happens (no call, no change of any cell),
    and with it the one call is [releaseIssue] and the error shown is that
    of the rejection, if any. *)
Theorem handleRelease_without_success (p : props) (confirmed : bool)
    (api : outcome) (st : state) :
  confirmed && reports_success api = false ->
  let r := handleRelease p confirmed api st in
  issue r.1 = issue st ∧
  (confirmed = false -> r = (st, [Confirm])) ∧
  (confirmed = true ->
     r.2 = [Confirm; ReleaseIssue (get (issue st) "id") (currentUserId p)
                       (accessToken p)] ∧
     isLoading r.1 = false ∧
     error r.1 =
       match api with
       | Rejected err => Some (message_or err (lit "Failed to release issue"))
       | Resolved _ => None
       end).
Proof.
  intros Hno r. subst r. unfold handleRelease.
  destruct confirmed; cbn [negb andb] in *.
  - destruct api as [result|err]; simpl in Hno; [rewrite Hno|]; by repeat split.
  - by repeat split.
Qed.

(** X2 on a release that is not confirmed, and on one the API rejects. *)
Lemma handleRelease_without_success_witness :
  handleRelease testProps false (Resolved mockReleaseResult)
    (initial claimedIssue) = (initial claimedIssue, [Confirm]) ∧
  error (handleRelease testProps true (Rejected OtherValue)
           (initial claimedIssue)).1 = Some (lit "Failed to release issue").
Proof.
  split.
  - by apply (handleRelease_without_success testProps false
                (Resolved mockReleaseResult) (initial claimedIssue)).
  - by apply (handleRelease_without_success testProps true
                (Rejected OtherValue) (initial claimedIssue)).
Defined.

(** X3: claiming an available issue and then releasing it gives back the
    issue object as it was, whatever time stamps the claim brought. *)
Theorem claim_then_release_restores (p : props) (now : jsstring)
    (claimResult releaseResult : gmap string jsval) (st : state) :
  issue st !! "status" = Some (JStr (lit "available")) ->
  issue st !! "claimed_by" = Some JNull ->
  issue st !! "claimed_at" = Some JNull ->
  issue st !! "claim_expires_at" = Some JNull ->
  truthy (get claimResult "success") = true ->
  truthy (get releaseResult "success") = true ->
  issue (handleRelease p true (Resolved releaseResult)
           (handleClaim p now (Resolved claimResult) st).1).1 = issue st.
Proof.
  intros Hs Hby Hat Hexp Hc Hr.
  unfold handleRelease, handleClaim. rewrite Hc. cbn [negb fst]. rewrite Hr.
  cbn [fst issue setIssue setIsLoading setError].
  apply map_eq. intros k.
  destruct (decide (k = "claim_expires_at")) as [->|?];
    [by rewrite lookup_insert_eq|rewrite lookup_insert_ne by done].
  destruct (decide (k = "claimed_at")) as [->|?];
    [by rewrite lookup_insert_eq|rewrite lookup_insert_ne by done].
  destruct (decide (k = "claimed_by")) as [->|?];
    [by rewrite lookup_insert_eq|rewrite lookup_insert_ne by done].
  destruct (decide (k = "status")) as [->|?];
    [by rewrite lookup_insert_eq|rewrite lookup_insert_ne by done].
  by rewrite !lookup_insert_ne.
Qed.

(** X3 on the issue and the results of the component tests. *)
Lemma claim_then_release_restores_witness :
  issue (handleRelease testProps true (Resolved mockReleaseResult)
           (handleClaim testProps (lit "2024-01-02T00:00:00.000Z")
              (Resolved mockClaimResult) (initial mockIssue)).1).1
    = mockIssue.
Proof.
  by apply (claim_then_release_restores testProps
              (lit "2024-01-02T00:00:00.000Z") mockClaimResult
              mockReleaseResult (initial mockIssue)).
Defined.

(** X4: what a try at extending leaves in the modal.  When the API reports
    success the modal is closed and the justification emptied; when it
    does not, the modal stays as it is, with the justification and the
    days as typed, and the message of a rejection is shown. *)
Theorem handleExtend_modal_after (p : props) (api : outcome) (st : state) :
  (10 <= length (justification st))%nat ->
  let st' := (handleExtend p api st).1 in
  extensionDays st' = extensionDays st ∧ isLoading st' = false ∧
  if reports_success api then
    showExtendModal st' = false ∧ justification st' = [] ∧ error st' = None
  else
    showExtendModal st' = showExtendModal st ∧
    justification st' = justification st ∧
    issue st' = issue st ∧
    error st' =
      match api with
      | Rejected err => Some (message_or err (lit "Failed to extend deadline"))
      | Resolved _ => None
      end.
Proof.
  intros Hlen st'. subst st'. rewrite handleExtend_long by done.
  destruct api as [result|err]; [|done]. simpl.
  by destruct (truthy (get result "success")).
Qed.

(** X4 on an extend the API rejects. *)
Lemma handleExtend_modal_after_witness :
  let st := extendModal (Num 7) (lit "I need more time to complete the work") in
  let st' := (handleExtend testProps
                (Rejected (ErrorObject (lit "Claim has expired"))) st).1 in
  showExtendModal st' = true ∧
  justification st' = lit "I need more time to complete the work" ∧
  error st' = Some (lit "Claim has expired").
Proof.
  destruct (handleExtend_modal_after testProps
    (Rejected (ErrorObject (lit "Claim has expired")))
    (extendModal (Num 7) (lit "I need more time to complete the work")))
    as (_ & _ & H1 & H2 & _ & H3); [simpl; lia|].
  by repeat split.
Defined.

(** ** After the pull request *)

(** No event takes the flag of the submitted pull request down. *)
Lemma step_keeps_submitted (p : props) pg pg' :
  step p pg pg' ->
  hasSubmittedPR pg.1 = true -> hasSubmittedPR pg'.1 = true.
Proof.
  intros Hstep Hsub.
  destruct Hstep; cbn [fst snd] in *;
    unfold handleClaim_resume, handleRelease_begin, handleRelease_resume,
      handleExtend_begin, handleExtend_resume;
    by repeat case_match.
Qed.

(** X5: the flag of the submitted pull request is never taken down.
    From a page on which it is up, whatever events follow and whatever
    requests under way come back, it stays up, and with it the holder's
    controls (release, extend, submit) stay away. *)
Theorem submitted_is_sticky (p : props) (pg pg' : state * list pending) :
  rtc (step p) pg pg' ->
  hasSubmittedPR pg.1 = true ->
  hasSubmittedPR pg'.1 = true ∧ ownControls p pg'.1 = false.
Proof.
  intros Hsteps Hsub.
  assert (hasSubmittedPR pg'.1 = true) as Hsub'.
  { induction Hsteps as [|pg pg1 pg' Hstep _ IH]; [done|].
    apply IH. by apply (step_keeps_submitted p pg pg1). }
  split; [done|]. unfold ownControls. rewrite Hsub'. apply andb_false_r.
Qed.

(** X5 on the extension that is answered after the pull request. *)
Lemma submitted_is_sticky_witness :
  hasSubmittedPR extendAnswered = true ∧
  ownControls testProps extendAnswered = false.
Proof.
  apply (submitted_is_sticky testProps
           (prAnswered, [PendingExtend modalFilled]) (extendAnswered, [])).
  - apply rtc_once.
    exact (extend_settles testProps (Resolved mockExtensionResult)
             modalFilled prAnswered [] []).
  - reflexivity.
Defined.

(** X6: from an initial issue that is claimed with a holder or available
    without one, the page never offers "Solve It" together with the
    holder's controls: when the status is available the issue is not
    claimed by the current user, nor by anybody else. *)
Theorem solve_it_excludes_own_controls (p : props)
    (initialIssue : gmap string jsval) (st : state) :
  holder_matches_status initialIssue ->
  reachable p initialIssue st ->
  strict_eq (get (issue st) "status") (JStr (lit "available")) = true ->
  isClaimedByCurrentUser p st = false ∧
  isClaimedByOther p st = false ∧
  ownControls p st = false.
Proof.
  intros Hinit Hreach Hav.
  apply strict_eq_str_true in Hav.
  destruct (reachable_keeps_holder p _ _ Hinit Hreach) as [_ Hnone].
  specialize (Hnone Hav).
  unfold ownControls, isClaimedByOther, isClaimedByCurrentUser.
  by destruct (get (issue st) "claimed_by").
Qed.

(** X6 after the claim and the release of the component tests. *)
Lemma solve_it_excludes_own_controls_witness :
  ownControls testProps
    (handleRelease testProps true (Resolved mockReleaseResult)
       (handleClaim testProps (lit "2024-01-02T00:00:00.000Z")
          (Resolved mockClaimResult) (initial mockIssue)).1).1 = false.
Proof.
  apply (solve_it_excludes_own_controls testProps mockIssue).
  - split; intros H; vm_compute in H; [discriminate|reflexivity].
  - exists [].
    pose proof (claimAnswered_run mockClaimResult) as R0.
    pose proof (run_step _ _ _ _ _ _ R0
      (click_release testProps true (claimAnswered mockClaimResult) []
         eq_refl eq_refl)) as R1.
    exact (run_step _ _ _ _ _ _ R1
      (release_settles testProps (Resolved mockReleaseResult)
         (claimAnswered mockClaimResult)
         (handleRelease_begin testProps true
            (claimAnswered mockClaimResult)).1.1 [] [])).
  - reflexivity.
Defined.

(** ** The days field shows what it parses *)

Section FieldRoundTrip.

(** Evaluates [digit_value] on a code unit that is known. *)
Ltac eval_digit :=
  match goal with
  | |- context [digit_value 10 ?c] =>
      let v := eval vm_compute in (digit_value 10 c) in
      change (digit_value 10 c) with v; cbv iota beta
  end.

(** Reading decimal digits, with a positive number read so far. *)
Lemma digits_uint_acc (d : Decimal.uint) (acc : positive) :
  digits 10 (lit (NilEmpty.string_of_uint d)) (Some (Z.pos acc))
    = Some (Z.pos (Pos.of_uint_acc d acc)).
Proof.
  revert acc.
  induction d; intros acc; cbn [NilEmpty.string_of_uint Pos.of_uint_acc];
    rewrite ?lit_cons; [done|..];
    cbn [digits]; eval_digit; cbn [default from_option id]; rewrite <- IHd;
    f_equal; f_equal; lia.
Qed.

(** The same from the start of a string that is no prefix "0x". *)
Lemma digits_uint (d : Decimal.uint) (acc : option Z) :
  d ≠ Decimal.Nil -> default 0 acc = 0 ->
  digits 10 (lit (NilEmpty.string_of_uint d)) acc
    = Some (Z.of_N (Pos.of_uint d)).
Proof.
  revert acc.
  induction d; intros acc Hd Hacc; [done|..];
    cbn [NilEmpty.string_of_uint Pos.of_uint]; rewrite lit_cons;
    cbn [digits]; eval_digit; rewrite Hacc.
  1: { assert (d = Decimal.Nil ∨ d ≠ Decimal.Nil) as [->|Hne]
         by (destruct d; by auto).
       - done.
       - by apply IHd. }
  all: cbn [Z.of_N Z.mul Z.add]; apply digits_uint_acc.
Qed.

(** A string of decimal digits, with or without a minus sign before it,
    is read in radix 10 from its first digit on. *)
Lemma parseInt_decimal (d : Decimal.uint) :
  d ≠ Decimal.Nil ->
  let s := lit (NilEmpty.string_of_uint d) in
  parseInt s =
    match digits 10 s None with None => NaN | Some m => Num (1 * m) end ∧
  parseInt (45%N :: s) =
    match digits 10 s None with None => NaN | Some m => Num (-1 * m) end.
Proof.
  intros Hd s. subst s.
  destruct d as [|d|d|d|d|d|d|d|d|d|d]; [done|..];
    cbn [NilEmpty.string_of_uint]; rewrite lit_cons;
    try (split; reflexivity).
  destruct d; cbn [NilEmpty.string_of_uint]; rewrite ?lit_cons;
    split; reflexivity.
Qed.

Lemma parseInt_uint (d : Decimal.uint) :
  d ≠ Decimal.Nil ->
  parseInt (lit (NilEmpty.string_of_uint d)) = Num (Z.of_N (Pos.of_uint d)) ∧
  parseInt (45%N :: lit (NilEmpty.string_of_uint d))
    = Num (- Z.of_N (Pos.of_uint d)).
Proof.
  intros Hd. destruct (parseInt_decimal d Hd) as [-> ->].
  rewrite digits_uint by done. split; f_equal; lia.
Qed.

(** [parseInt] reads back the decimal form of an integer. *)
Lemma parseInt_show_num (z : Z) : parseInt (show_num (Num z)) = Num z.
Proof.
  destruct z as [|q|q]; [reflexivity|..];
    unfold show_num;
    cbn [Z.to_int NilZero.string_of_int];
    pose proof (DecimalPos.Unsigned.to_uint_nonnil q) as Hnil;
    pose proof (DecimalPos.Unsigned.of_to q) as Hback;
    assert (NilZero.string_of_uint (Pos.to_uint q)
            = NilEmpty.string_of_uint (Pos.to_uint q)) as ->
      by (by destruct (Pos.to_uint q));
    rewrite ?lit_cons;
    destruct (parseInt_uint (Pos.to_uint q) Hnil) as [Hpos Hneg].
  - by rewrite Hpos, Hback.
  - rewrite Hback in Hneg. exact Hneg.
Qed.

End FieldRoundTrip.

(** X7: the days field reads back what it shows.  For every integer that
    a number holds exactly, [parseInt] of its decimal form is that integer;
    so when the field is given the text it displays for its days (never 0
    on the page), the state stays as it is. *)
Theorem days_field_round_trip (st : state) (z : Z) :
  - 9007199254740991 <= z <= 9007199254740991 ->
  parseInt (show_num (Num z)) = Num z ∧
  (extensionDays st = Num z -> z ≠ 0 ->
   onChangeExtensionDays (show_num (extensionDays st)) st = st).
Proof.
  intros _. split; [apply parseInt_show_num|].
  intros Hdays Hz. unfold onChangeExtensionDays.
  rewrite Hdays, parseInt_show_num. unfold or_num. cbn [truthy_num].
  rewrite (proj2 (Z.eqb_neq z 0) Hz). cbn [negb].
  destruct st. cbn in *. by subst.
Qed.

(** X7 on the seven days the modal starts with. *)
Lemma days_field_round_trip_witness :
  parseInt (show_num (Num 7)) = Num 7 ∧
  onChangeExtensionDays (show_num (Num 7)) (initial claimedIssue)
    = initial claimedIssue.
Proof.
  destruct (days_field_round_trip (initial claimedIssue) 7) as [H1 H2];
    [lia|].
  split; [exact H1|]. by apply H2.
Defined.

(** ** More on the countdown *)

Lemma calculateTimeRemaining_isExpired (now expiry : jsnum) (t : timer) :
  isExpired (calculateTimeRemaining now expiry t)
    = isExpired t || num_le (num_sub expiry now) (Num 0).
Proof.
  unfold calculateTimeRemaining.
  destruct (num_le (num_sub expiry now) (Num 0)).
  - cbn. by rewrite orb_true_r.
  - rewrite orb_false_r. by repeat case_match.
Qed.

(** The countdown of a time that is still to come. *)
Lemma calculateTimeRemaining_future (now expiry : Z) (t : timer) :
  now < expiry ->
  let diff := expiry - now in
  let days := diff / 86400000 in
  let hours := diff mod 86400000 / 3600000 in
  let minutes := diff mod 3600000 / 60000 in
  timeRemaining (calculateTimeRemaining (Num now) (Num expiry) t) =
    if 0 <? days then
      show_num (Num days) ++ lit "d " ++ show_num (Num hours) ++ lit "h"
    else if 0 <? hours then
      show_num (Num hours) ++ lit "h " ++ show_num (Num minutes) ++ lit "m"
    else show_num (Num minutes) ++ lit "m".
Proof.
  intros Hlt diff days hours minutes.
  unfold calculateTimeRemaining.
  cbn [num_sub num_le num_floor_div num_rem num_gt].
  change (1000 * 60 * 60 * 24) with 86400000.
  change (1000 * 60 * 60) with 3600000.
  change (1000 * 60) with 60000.
  fold diff. rewrite (proj2 (Z.leb_gt diff 0)) by (unfold diff; lia).
  rewrite !Z.rem_mod_nonneg by (unfold diff; lia).
  fold days hours minutes.
  by destruct (0 <? days), (0 <? hours).
Qed.

(** X8: the expired flag is never taken down.  After any number of ticks,
    each with its current time and its expiry, the flag is up exactly when
    it was up before or some tick found the expiry not in the future; so a
    countdown that has expired stays marked as expired when its expiry is
    moved into the future. *)
Theorem isExpired_is_sticky (ticks : list (jsnum * jsnum)) (t : timer) :
  isExpired
    (foldl (λ t tick, calculateTimeRemaining tick.1 tick.2 t) t ticks)
  = isExpired t ||
    existsb (λ tick, num_le (num_sub tick.2 tick.1) (Num 0)) ticks.
Proof.
  revert t. induction ticks as [|tick ticks IH]; intros t; cbn [foldl existsb].
  - by rewrite orb_false_r.
  - by rewrite IH, calculateTimeRemaining_isExpired, orb_assoc.
Qed.

(** X9: which text the countdown shows, by the time that remains, and how
    close it is: from a day on it is days and hours, rounded down to the
    hour; from an hour on, hours and minutes, rounded down to the minute;
    below an hour, minutes only; and in the last minute it is "0m". *)
Theorem countdown_text_by_range (now expiry : Z) (t : timer) :
  let diff := expiry - now in
  let text := timeRemaining (calculateTimeRemaining (Num now) (Num expiry) t) in
  (86400000 <= diff ->
     ∃ d h, text = show_num (Num d) ++ lit "d " ++ show_num (Num h) ++ lit "h" ∧
            1 <= d ∧ 0 <= h < 24 ∧
            d * 86400000 + h * 3600000 <= diff
              < d * 86400000 + (h + 1) * 3600000) ∧
  (3600000 <= diff < 86400000 ->
     ∃ h m, text = show_num (Num h) ++ lit "h " ++ show_num (Num m) ++ lit "m" ∧
            1 <= h < 24 ∧ 0 <= m < 60 ∧
            h * 3600000 + m * 60000 <= diff < h * 3600000 + (m + 1) * 60000) ∧
  (0 < diff < 3600000 ->
     ∃ m, text = show_num (Num m) ++ lit "m" ∧ 0 <= m < 60 ∧
          m * 60000 <= diff < (m + 1) * 60000) ∧
  (0 < diff < 60000 -> text = lit "0m").
Proof.
  intros diff text.
  assert (Hfuture : 0 < diff -> text =
    if 0 <? diff / 86400000 then
      show_num (Num (diff / 86400000)) ++ lit "d "
        ++ show_num (Num (diff mod 86400000 / 3600000)) ++ lit "h"
    else if 0 <? diff mod 86400000 / 3600000 then
      show_num (Num (diff mod 86400000 / 3600000)) ++ lit "h "
        ++ show_num (Num (diff mod 3600000 / 60000)) ++ lit "m"
    else show_num (Num (diff mod 3600000 / 60000)) ++ lit "m").
  { intros Hpos. apply calculateTimeRemaining_future. unfold diff in Hpos. lia. }
  pose proof (Z.div_mod diff 86400000 ltac:(lia)) as Hday.
  pose proof (Z.mod_pos_bound diff 86400000 ltac:(lia)) as Hdayb.
  pose proof (Z.div_mod (diff mod 86400000) 3600000 ltac:(lia)) as Hhour.
  pose proof (Z.mod_pos_bound (diff mod 86400000) 3600000 ltac:(lia)) as Hhourb.
  pose proof (Z.div_mod diff 3600000 ltac:(lia)) as Hhr.
  pose proof (Z.mod_pos_bound diff 3600000 ltac:(lia)) as Hhrb.
  pose proof (Z.div_mod (diff mod 3600000) 60000 ltac:(lia)) as Hmin.
  pose proof (Z.mod_pos_bound (diff mod 3600000) 60000 ltac:(lia)) as Hminb.
  split; [|split; [|split]].
  - intros Hrange. rewrite Hfuture by lia.
    assert (1 <= diff / 86400000) by (apply Z.div_le_lower_bound; lia).
    rewrite (proj2 (Z.ltb_lt 0 (diff / 86400000))) by lia.
    exists (diff / 86400000), (diff mod 86400000 / 3600000).
    split; [done|]. lia.
  - intros Hrange. rewrite Hfuture by lia.
    assert (diff / 86400000 = 0) as Hd0 by (apply Z.div_small; lia).
    rewrite Hd0. cbn [Z.ltb Z.compare].
    assert (diff mod 86400000 = diff) as Hm0 by (apply Z.mod_small; lia).
    rewrite Hm0 in *.
    assert (1 <= diff / 3600000) by (apply Z.div_le_lower_bound; lia).
    rewrite (proj2 (Z.ltb_lt 0 (diff / 3600000))) by lia.
    exists (diff / 3600000), (diff mod 3600000 / 60000).
    split; [done|]. lia.
  - intros Hrange. rewrite Hfuture by lia.
    assert (diff / 86400000 = 0) as Hd0 by (apply Z.div_small; lia).
    rewrite Hd0. cbn [Z.ltb Z.compare].
    assert (diff mod 86400000 = diff) as Hm0 by (apply Z.mod_small; lia).
    rewrite Hm0 in *.
    assert (diff / 3600000 = 0) as Hh0 by (apply Z.div_small; lia).
    rewrite Hh0. cbn [Z.ltb Z.compare].
    assert (diff mod 3600000 = diff) as Hm1 by (apply Z.mod_small; lia).
    rewrite Hm1 in *.
    exists (diff / 60000). split; [done|]. lia.
  - intros Hrange. rewrite Hfuture by lia.
    rewrite (Z.div_small diff 86400000) by lia. cbn [Z.ltb Z.compare].
    rewrite (Z.mod_small diff 86400000) by lia.
    rewrite (Z.div_small diff 3600000) by lia. cbn [Z.ltb Z.compare].
    rewrite (Z.mod_small diff 3600000) by lia.
    by rewrite (Z.div_small diff 60000) by lia.
Qed.

(** X9 at 2 days 5 hours 30 minutes, and 20 seconds, before the expiry. *)
Lemma countdown_text_by_range_witness :
  (∃ d h,
     timeRemaining (calculateTimeRemaining (Num 1704067200000)
                      (Num (1704067200000 + 192600000)) initial_timer)
       = show_num (Num d) ++ lit "d " ++ show_num (Num h) ++ lit "h" ∧
     1 <= d ∧ 0 <= h < 24 ∧
     d * 86400000 + h * 3600000 <= 192600000
       < d * 86400000 + (h + 1) * 3600000) ∧
  timeRemaining (calculateTimeRemaining (Num 1704067200000)
                   (Num (1704067200000 + 20000)) initial_timer) = lit "0m".
Proof.
  split.
  - destruct (countdown_text_by_range 1704067200000
                (1704067200000 + 192600000) initial_timer) as (H & _).
    destruct H as (d & h & Htext & Hd & Hh & Hdiff); [lia|].
    exists d, h. repeat split; try done; lia.
  - apply (countdown_text_by_range 1704067200000 (1704067200000 + 20000)
             initial_timer). lia.
Defined.

(** X10: when [expiresAt] is not a date the countdown shows "NaNm" at
    every tick, never "Expired", and leaves the expired flag as it was. *)
Theorem countdown_of_invalid_date (now : jsnum) (t : timer) :
  let t' := calculateTimeRemaining now NaN t in
  timeRemaining t' = lit "NaNm" ∧
  timeRemaining t' ≠ lit "Expired" ∧
  isExpired t' = isExpired t.
Proof.
  cbv zeta. rewrite calculateTimeRemaining_NaN. cbn.
  split; [done|]. split; [|done].
  intros H. vm_compute in H. discriminate.
Qed.

(** ** The pull request form *)

Module PRSubmissionFormFacts.
Import PRSubmissionForm.

Lemma trim_start_nil (s : jsstring) :
  trim_start s = [] <-> forallb is_white_space s = true.
Proof.
  induction s as [|c s IH]; cbn [trim_start forallb]; [done|].
  destruct (is_white_space c); cbn [andb]; [exact IH|]. split; discriminate.
Qed.

Lemma trim_start_head (s : jsstring) c r :
  trim_start s = c :: r -> is_white_space c = false.
Proof.
  induction s as [|c' s IH]; cbn [trim_start]; [discriminate|].
  destruct (is_white_space c') eqn:Hc; [exact IH|]. by intros [= <- _].
Qed.

(** A string trims to nothing exactly when it is all white space. *)
Lemma trim_nil (s : jsstring) :
  trim s = [] <-> forallb is_white_space s = true.
Proof.
  rewrite <- trim_start_nil. unfold trim. split.
  - intros H. apply (f_equal (@rev N)) in H. rewrite rev_involutive in H.
    cbn in H. apply trim_start_nil in H.
    destruct (trim_start s) as [|c r] eqn:Hs; [done|].
    apply trim_start_head in Hs.
    rewrite forallb_forall in H. specialize (H c).
    rewrite H in Hs; [discriminate|]. apply in_rev. rewrite rev_involutive.
    by left.
  - by intros ->.
Qed.

Lemma starts_with_spec (pat s : jsstring) :
  starts_with pat s = true <-> ∃ post, s = pat ++ post.
Proof.
  revert s. induction pat as [|a pat IH]; intros s; cbn [starts_with].
  - split; [by exists s|done].
  - destruct s as [|c s].
    + split; [discriminate|]. by intros [post [=]].
    + rewrite andb_true_iff, N.eqb_eq, IH. split.
      * intros [-> [post ->]]. by exists post.
      * intros [post [= -> ->]]. split; [done|]. by exists post.
Qed.

(** [includes] finds the pattern exactly when it is a substring. *)
Lemma includes_spec (s pat : jsstring) :
  includes s pat = true <-> ∃ pre post, s = pre ++ pat ++ post.
Proof.
  induction s as [|c s IH]; cbn [includes]; rewrite orb_true_iff.
  - rewrite starts_with_spec. split.
    + intros [[post ->]|[=]]. by exists [], post.
    + intros (pre & post & Heq). left. exists post.
      destruct pre; [done|discriminate].
  - rewrite starts_with_spec, IH. split.
    + intros [[post ->]|(pre & post & ->)].
      * by exists [], post.
      * by exists (c :: pre), post.
    + intros ([|c' pre] & post & Heq).
      * left. by exists post.
      * right. injection Heq as -> ->. by exists pre, post.
Qed.

Lemma blank_iff (url : jsstring) :
  negb (truthy (JStr (trim url))) = true <->
  forallb is_white_space url = true.
Proof.
  rewrite <- trim_nil. cbn [truthy]. rewrite negb_involutive.
  apply bool_decide_eq_true.
Qed.

End PRSubmissionFormFacts.

(** X11: a URL that is empty or all white space has the one error "PR URL
    is required", whatever the URL parser would say of it, and submitting
    it sends nothing: the errors are shown and the rest of the form is as
    it was. *)
Theorem blank_url_is_required (parseURL : jsstring -> option jsstring)
    (p : PRSubmissionForm.form_props) (api : outcome)
    (f : PRSubmissionForm.form) :
  forallb is_white_space (PRSubmissionForm.prUrl f) = true ->
  PRSubmissionForm.validatePRUrl parseURL (PRSubmissionForm.prUrl f)
    = [lit "PR URL is required"] ∧
  PRSubmissionForm.handleSubmit parseURL p api f
    = (PRSubmissionForm.setValidationErrors [lit "PR URL is required"] f,
       [PRSubmissionForm.PreventDefault]).
Proof.
  intros Hblank. apply PRSubmissionFormFacts.blank_iff in Hblank.
  assert (Hv : PRSubmissionForm.validatePRUrl parseURL
                 (PRSubmissionForm.prUrl f) = [lit "PR URL is required"]).
  { unfold PRSubmissionForm.validatePRUrl. by rewrite Hblank. }
  split; [done|]. unfold PRSubmissionForm.handleSubmit. by rewrite Hv.
Qed.

(** X11 on the empty form and on a URL of blanks. *)
Lemma blank_url_is_required_witness :
  PRSubmissionForm.validatePRUrl (λ _, None) [] = [lit "PR URL is required"] ∧
  PRSubmissionForm.validatePRUrl (λ _, None) (lit "   ")
    = [lit "PR URL is required"].
Proof.
  split.
  - by apply (blank_url_is_required (λ _, None)
                {| PRSubmissionForm.issueId := JNum (Num 1);
                   PRSubmissionForm.userId := Num 1;
                   PRSubmissionForm.formToken := lit "test-token" |}
                (Rejected OtherValue) PRSubmissionForm.initial_form).
  - by apply (blank_url_is_required (λ _, None)
                {| PRSubmissionForm.issueId := JNum (Num 1);
                   PRSubmissionForm.userId := Num 1;
                   PRSubmissionForm.formToken := lit "test-token" |}
                (Rejected OtherValue)
                (PRSubmissionForm.setPrUrl (lit "   ")
                   PRSubmissionForm.initial_form)).
Defined.

(** X12: a URL passes [validatePRUrl] exactly when it is not blank, the
    URL parser accepts it, "github.com" occurs somewhere in its host name
    and "/pull/" occurs somewhere in the URL as typed. *)
Theorem validatePRUrl_accepts (parseURL : jsstring -> option jsstring)
    (url : jsstring) :
  PRSubmissionForm.validatePRUrl parseURL url = [] <->
  forallb is_white_space url = false ∧
  ∃ hostname, parseURL url = Some hostname ∧
    (∃ pre post, hostname = pre ++ lit "github.com" ++ post) ∧
    (∃ pre post, url = pre ++ lit "/pull/" ++ post).
Proof.
  unfold PRSubmissionForm.validatePRUrl.
  repeat setoid_rewrite <- PRSubmissionFormFacts.includes_spec.
  destruct (negb (truthy (JStr (PRSubmissionForm.trim url)))) eqn:Hblank.
  - apply PRSubmissionFormFacts.blank_iff in Hblank. rewrite Hblank.
    split; [discriminate|]. by intros [[=] _].
  - assert (forallb is_white_space url = false) as ->.
    { apply not_true_iff_false. intros H.
      apply PRSubmissionFormFacts.blank_iff in H. congruence. }
    destruct (parseURL url) as [hostname|].
    + destruct (PRSubmissionForm.includes hostname (lit "github.com")) eqn:Hh,
        (PRSubmissionForm.includes url (lit "/pull/")) eqn:Hu; cbn [negb app].
      * split; [|done]. intros _. split; [done|]. by exists hostname.
      * split; [discriminate|]. by intros (_ & h & _ & _ & [=]).
      * split; [discriminate|]. intros (_ & h & [= <-] & Hc & _). congruence.
      * split; [discriminate|]. intros (_ & h & [= <-] & Hc & _). congruence.
    + split; [discriminate|]. by intros (_ & h & [=] & _).
Qed.

(** X12 on the URL of the workflow test, with a parser that finds the
    host. *)
Lemma validatePRUrl_accepts_witness :
  PRSubmissionForm.validatePRUrl (λ _, Some (lit "github.com"))
    (lit "https://github.com/owner/repo/pull/999") = [].
Proof.
  apply validatePRUrl_accepts. split; [reflexivity|].
  exists (lit "github.com"). split; [reflexivity|]. split.
  - by exists [], [].
  - by exists (lit "https://github.com/owner/repo"), (lit "999").
Defined.

(** X13: a form whose URL does not pass the validation sends no request
    when submitted and raises no success: the errors found are shown, and
    the URL, the submitting flag and the error of an earlier request stay
    as they were. *)
Theorem handleSubmit_invalid (parseURL : jsstring -> option jsstring)
    (p : PRSubmissionForm.form_props) (api : outcome)
    (f : PRSubmissionForm.form) :
  PRSubmissionForm.validatePRUrl parseURL (PRSubmissionForm.prUrl f) ≠ [] ->
  let r := PRSubmissionForm.handleSubmit parseURL p api f in
  r.2 = [PRSubmissionForm.PreventDefault] ∧
  PRSubmissionForm.validationErrors r.1
    = PRSubmissionForm.validatePRUrl parseURL (PRSubmissionForm.prUrl f) ∧
  PRSubmissionForm.prUrl r.1 = PRSubmissionForm.prUrl f ∧
  PRSubmissionForm.isSubmitting r.1 = PRSubmissionForm.isSubmitting f ∧
  PRSubmissionForm.formError r.1 = PRSubmissionForm.formError f.
Proof.
  intros Hbad r. subst r. unfold PRSubmissionForm.handleSubmit.
  destruct (PRSubmissionForm.validatePRUrl parseURL (PRSubmissionForm.prUrl f));
    [done|]. by cbn.
Qed.

(** X13 on a URL the parser refuses. *)
Lemma handleSubmit_invalid_witness :
  (PRSubmissionForm.handleSubmit (λ _, None)
     {| PRSubmissionForm.issueId := JNum (Num 1);
        PRSubmissionForm.userId := Num 789;
        PRSubmissionForm.formToken := lit "test-token" |}
     (Resolved mockSubmissionResult)
     (PRSubmissionForm.setPrUrl (lit "not-a-url")
        PRSubmissionForm.initial_form)).2
  = [PRSubmissionForm.PreventDefault].
Proof.
  by apply (handleSubmit_invalid (λ _, None)).
Defined.

(** X14: a form whose URL passes the validation sends one request, with
    the issue, the URL as typed, the user and the token, and ends with the
    submitting flag down and no validation errors.  It raises a success,
    with the result, exactly when the API reports one; a result without
    success puts its message in the error cell, a rejection the message of
    the thrown [Error] or "Failed to submit pull request". *)
Theorem handleSubmit_valid (parseURL : jsstring -> option jsstring)
    (p : PRSubmissionForm.form_props) (api : outcome)
    (f : PRSubmissionForm.form) :
  PRSubmissionForm.validatePRUrl parseURL (PRSubmissionForm.prUrl f) = [] ->
  let r := PRSubmissionForm.handleSubmit parseURL p api f in
  let call := PRSubmissionForm.SubmitPullRequest (PRSubmissionForm.issueId p)
                (PRSubmissionForm.prUrl f) (PRSubmissionForm.userId p)
                (PRSubmissionForm.formToken p) in
  PRSubmissionForm.isSubmitting r.1 = false ∧
  PRSubmissionForm.validationErrors r.1 = [] ∧
  PRSubmissionForm.prUrl r.1 = PRSubmissionForm.prUrl f ∧
  match api with
  | Resolved result =>
      if truthy (get result "success") then
        r.2 = [PRSubmissionForm.PreventDefault; call;
               PRSubmissionForm.OnSuccess result] ∧
        PRSubmissionForm.formError r.1 = JNull
      else
        r.2 = [PRSubmissionForm.PreventDefault; call] ∧
        PRSubmissionForm.formError r.1 = get result "message"
  | Rejected err =>
      r.2 = [PRSubmissionForm.PreventDefault; call] ∧
      PRSubmissionForm.formError r.1
        = JStr (message_or err (lit "Failed to submit pull request"))
  end.
Proof.
  intros Hok r call. subst r call. unfold PRSubmissionForm.handleSubmit.
  rewrite Hok. cbn [length Nat.ltb Nat.leb].
  destruct api as [result|err]; [|by cbn].
  by destruct (truthy (get result "success")).
Qed.

(** X14 on the submission of the workflow test. *)
Lemma handleSubmit_valid_witness :
  (PRSubmissionForm.handleSubmit (λ _, Some (lit "github.com"))
     {| PRSubmissionForm.issueId := JNum (Num 1);
        PRSubmissionForm.userId := Num 789;
        PRSubmissionForm.formToken := lit "test-token" |}
     (Resolved mockSubmissionResult)
     (PRSubmissionForm.setPrUrl (lit "https://github.com/owner/repo/pull/999")
        PRSubmissionForm.initial_form)).2
  = [PRSubmissionForm.PreventDefault;
     PRSubmissionForm.SubmitPullRequest (JNum (Num 1))
       (lit "https://github.com/owner/repo/pull/999") (Num 789)
       (lit "test-token");
     PRSubmissionForm.OnSuccess mockSubmissionResult].
Proof.
  by destruct (handleSubmit_valid (λ _, Some (lit "github.com"))
    {| PRSubmissionForm.issueId := JNum (Num 1);
       PRSubmissionForm.userId := Num 789;
       PRSubmissionForm.formToken := lit "test-token" |}
    (Resolved mockSubmissionResult)
    (PRSubmissionForm.setPrUrl (lit "https://github.com/owner/repo/pull/999")
       PRSubmissionForm.initial_form) eq_refl) as (_ & _ & _ & H & _).
Defined.

(** X15: typing in the URL field takes the new text and clears what was
    shown: no validation error is left, and no error of a request. *)
Theorem handleUrlChange_clears (value : jsstring) (f : PRSubmissionForm.form) :
  let f' := PRSubmissionForm.handleUrlChange value f in
  PRSubmissionForm.prUrl f' = value ∧
  PRSubmissionForm.validationErrors f' = [] ∧
  truthy (PRSubmissionForm.formError f') = false ∧
  PRSubmissionForm.isSubmitting f' = PRSubmissionForm.isSubmitting f.
Proof.
  unfold PRSubmissionForm.handleUrlChange.
  destruct f as [url sub err errs]. cbn.
  destruct errs, (truthy err) eqn:Herr; by cbn.
Qed.

(** X16: a success raised by the form is an event of the page.  When the
    form is submitted in a render of the page in which it is on show, fed
    from that render (the issue's id, the current user, the token), then
    the result it hands to [onSuccess] is the answer of the API and has a
    true [success]; and whatever the page has become when it does so, the
    [handlePRSuccess] of that render is a step of the page that makes the
    status completed, sets the flag, hides the form and keeps the result
    for the celebration.  The issue it leaves is the one of the render the
    form was submitted in, with the status replaced; the other cells of
    the page are as they were. *)
Theorem form_success_is_page_step (parseURL : jsstring -> option jsstring)
    (p : props) (render st : state) (fl1 fl2 : list pending) (api : outcome)
    (f : PRSubmissionForm.form) (result : gmap string jsval) :
  showPRForm render && ownControls p render = true ->
  PRSubmissionForm.OnSuccess result ∈
    (PRSubmissionForm.handleSubmit parseURL
       {| PRSubmissionForm.issueId := get (issue render) "id";
          PRSubmissionForm.userId := currentUserId p;
          PRSubmissionForm.formToken := accessToken p |} api f).2 ->
  let st' := handlePRSuccess render result st in
  api = Resolved result ∧
  truthy (get result "success") = true ∧
  step p (render, fl1 ++ fl2) (render, PendingSubmit render :: fl1 ++ fl2) ∧
  step p (st, fl1 ++ PendingSubmit render :: fl2) (st', fl1 ++ fl2) ∧
  get (issue st') "status" = JStr (lit "completed") ∧
  hasSubmittedPR st' = true ∧ showPRForm st' = false ∧
  celebrationResult st' = Some result ∧
  (∀ k, k ≠ "status" -> issue st' !! k = issue render !! k) ∧
  isLoading st' = isLoading st ∧ error st' = error st ∧
  showExtendModal st' = showExtendModal st ∧
  extensionDays st' = extensionDays st ∧
  justification st' = justification st.
Proof.
  intros Hshown Hin st'. subst st'.
  assert (api = Resolved result ∧ truthy (get result "success") = true)
    as [-> Hok].
  { unfold PRSubmissionForm.handleSubmit in Hin.
    destruct (0 <? length _)%nat.
    - apply list_elem_of_singleton in Hin. discriminate.
    - destruct api as [r|err].
      + destruct (truthy (get r "success")) eqn:Hr; cbn [snd] in Hin.
        * apply elem_of_cons in Hin as [[=]|Hin].
          apply elem_of_cons in Hin as [[=]|Hin].
          apply list_elem_of_singleton in Hin. injection Hin as <-. done.
        * apply elem_of_cons in Hin as [[=]|Hin].
          apply list_elem_of_singleton in Hin. discriminate.
      + cbn [snd] in Hin.
        apply elem_of_cons in Hin as [[=]|Hin].
        apply list_elem_of_singleton in Hin. discriminate. }
  split; [done|]. split; [done|].
  split; [by apply pr_form_submit|]. split; [by apply pr_form_success|].
  unfold handlePRSuccess. cbn. rewrite get_insert_eq.
  repeat split. intros k Hk. by rewrite lookup_insert_ne.
Qed.

(** X16 on the pull request that is answered while an extension is under
    way. *)
Lemma form_success_is_page_step_witness :
  get (issue prAnswered) "status" = JStr (lit "completed") ∧
  hasSubmittedPR prAnswered = true ∧
  isLoading prAnswered = isLoading extendAsked.
Proof.
  destruct (form_success_is_page_step (λ _, Some (lit "github.com")) testProps
    formShown extendAsked [PendingExtend modalFilled] []
    (Resolved mockSubmissionResult)
    (PRSubmissionForm.setPrUrl (lit "https://github.com/owner/repo/pull/999")
       PRSubmissionForm.initial_form)
    mockSubmissionResult) as (_ & _ & _ & _ & H1 & H2 & _ & _ & _ & H3 & _).
  - reflexivity.
  - vm_compute. do 2 apply list_elem_of_further. apply list_elem_of_here.
  - by repeat split.
Defined.

(** ** The contribution panel *)

Module PRManagementFacts.
Import PRManagement.

Section Panel.
Context (issueId : jsnum).
Local Abbreviation of_issue := (PRManagement.of_issue issueId).

Lemma find_first (pre post : list (gmap string jsval)) c :
  Forall (λ x, of_issue x = false) pre -> of_issue c = true ->
  List.find of_issue (pre ++ c :: post) = Some c.
Proof.
  intros Hpre Hc. induction Hpre as [|x pre Hx _ IH]; cbn [app List.find].
  - by rewrite Hc.
  - by rewrite Hx.
Qed.

Lemma find_nothing (cs : list (gmap string jsval)) :
  Forall (λ x, of_issue x = false) cs -> List.find of_issue cs = None.
Proof.
  induction 1 as [|x cs Hx _ IH]; cbn [List.find]; [done|]. by rewrite Hx.
Qed.

(** A load keeps to contributions of the issue. *)
Lemma loadContribution_of_issue api s :
  (∀ c, contribution s = Some c -> of_issue c = true) ->
  ∀ c, contribution (loadContribution issueId api s) = Some c ->
       of_issue c = true.
Proof.
  intros Hinv c. unfold loadContribution.
  destruct api as [cs|err]; [|apply Hinv].
  destruct (List.find of_issue cs) as [found|] eqn:Hfind;
    [|apply Hinv].
  cbn. intros [= <-]. by apply find_some in Hfind as [_ ?].
Qed.

End Panel.

End PRManagementFacts.

(** A failure with a message is shown with the whole of its message. *)
Lemma render_error_message (c : option (gmap string jsval))
    (message : jsstring) :
  message ≠ [] ->
  PRManagement.render
    {| PRManagement.contribution := c; PRManagement.panelLoading := false;
       PRManagement.panelError := Some message |}
  = PRManagement.ErrorWithRetry message.
Proof. by destruct message. Qed.

(** X17: whatever the loads of the panel bring, one after the other, a
    contribution it holds is one of its issue: its [issue_id] is strictly
    equal to the panel's [issueId]. *)
Theorem loads_hold_contribution_of_issue (issueId : jsnum)
    (apis : list PRManagement.load_outcome) (c : gmap string jsval) :
  PRManagement.contribution (PRManagement.loads issueId apis) = Some c ->
  strict_eq (get c "issue_id") (JNum issueId) = true.
Proof.
  unfold PRManagement.loads.
  assert (Hgen : ∀ s,
    (∀ c, PRManagement.contribution s = Some c ->
          PRManagement.of_issue issueId c = true) ->
    ∀ c, PRManagement.contribution
           (foldl (λ s api, PRManagement.loadContribution issueId api s)
              s apis) = Some c ->
         PRManagement.of_issue issueId c = true).
  { induction apis as [|api apis IH]; intros s Hinv; [exact Hinv|].
    cbn [foldl]. apply IH.
    by apply PRManagementFacts.loadContribution_of_issue. }
  apply Hgen. intros c' [=].
Qed.

(** X17 on a load that brings the contributions of issues 2 and 1 to the
    panel of issue 1. *)
Lemma loads_hold_contribution_of_issue_witness :
  strict_eq (get (<["issue_id" := JNum (Num 1)]> (∅ : gmap string jsval))
               "issue_id") (JNum (Num 1)) = true.
Proof.
  apply (loads_hold_contribution_of_issue (Num 1)
    [PRManagement.Loaded
       [<["issue_id" := JNum (Num 2)]> ∅; <["issue_id" := JNum (Num 1)]> ∅]]).
  reflexivity.
Defined.

(** X18: what a load leaves in the panel.  Of the contributions it
    brings, the first one of the issue is taken; when none is of the
    issue, or the load fails, the contribution held before is kept (it is
    never cleared).  The spinner is off afterwards, and a failure leaves
    the message of the thrown [Error] or "Failed to load contribution". *)
Theorem loadContribution_takes_first (issueId : jsnum)
    (api : PRManagement.load_outcome) (s : PRManagement.panel) :
  let s' := PRManagement.loadContribution issueId api s in
  let other c := strict_eq (get c "issue_id") (JNum issueId) = false in
  PRManagement.panelLoading s' = false ∧
  match api with
  | PRManagement.Loaded cs =>
      PRManagement.panelError s' = None ∧
      (∀ pre c post, cs = pre ++ c :: post -> Forall other pre ->
         strict_eq (get c "issue_id") (JNum issueId) = true ->
         PRManagement.contribution s' = Some c) ∧
      (Forall other cs ->
         PRManagement.contribution s' = PRManagement.contribution s)
  | PRManagement.LoadFailed err =>
      PRManagement.contribution s' = PRManagement.contribution s ∧
      PRManagement.panelError s'
        = Some (message_or err (lit "Failed to load contribution"))
  end.
Proof.
  intros s' other. subst s'. unfold PRManagement.loadContribution.
  destruct api as [cs|err]; [|done].
  split; [by destruct (List.find _ cs)|].
  split; [by destruct (List.find _ cs)|]. split.
  - intros pre c post -> Hpre Hc.
    by rewrite (PRManagementFacts.find_first issueId pre post c Hpre Hc).
  - intros Hnone. by rewrite (PRManagementFacts.find_nothing issueId cs Hnone).
Qed.

(** X18 on two contributions of issue 1 behind one of issue 2: the first
    of the two is taken. *)
Lemma loadContribution_takes_first_witness :
  PRManagement.contribution
    (PRManagement.loadContribution (Num 1)
       (PRManagement.Loaded
          [<["issue_id" := JNum (Num 2)]> ∅;
           <["pr_number" := JNum (Num 10)]> (<["issue_id" := JNum (Num 1)]> ∅);
           <["pr_number" := JNum (Num 11)]> (<["issue_id" := JNum (Num 1)]> ∅)])
       PRManagement.initial_panel)
  = Some (<["pr_number" := JNum (Num 10)]> (<["issue_id" := JNum (Num 1)]> ∅)).
Proof.
  destruct (loadContribution_takes_first (Num 1)
    (PRManagement.Loaded
       [<["issue_id" := JNum (Num 2)]> ∅;
        <["pr_number" := JNum (Num 10)]> (<["issue_id" := JNum (Num 1)]> ∅);
        <["pr_number" := JNum (Num 11)]> (<["issue_id" := JNum (Num 1)]> ∅)])
    PRManagement.initial_panel) as (_ & _ & Hfirst & _).
  apply (Hfirst [<["issue_id" := JNum (Num 2)]> ∅] _
           [<["pr_number" := JNum (Num 11)]>
              (<["issue_id" := JNum (Num 1)]> ∅)]).
  - reflexivity.
  - by apply Forall_singleton.
  - reflexivity.
Defined.

(** ** The controls after a claim and after a release *)

(** X19: the controls follow the claim.  After a successful claim by a
    user with a numeric id the issue is claimed by the current user and by
    nobody else, "Solve It" is gone, and the holder's controls are on
    offer unless a pull request was submitted; after a successful release
    "Solve It" is back and the holder's controls are gone. *)
Theorem controls_follow_claim (p : props) (u : Z) (now : jsstring)
    (result : gmap string jsval) (st : state) :
  currentUserId p = Num u ->
  truthy (get result "success") = true ->
  (let st' := (handleClaim p now (Resolved result) st).1 in
   strict_eq (get (issue st') "status") (JStr (lit "available")) = false ∧
   isClaimedByCurrentUser p st' = true ∧
   isClaimedByOther p st' = false ∧
   ownControls p st' = negb (hasSubmittedPR st)) ∧
  (let st' := (handleRelease p true (Resolved result) st).1 in
   strict_eq (get (issue st') "status") (JStr (lit "available")) = true ∧
   isClaimedByCurrentUser p st' = false ∧
   isClaimedByOther p st' = false ∧
   ownControls p st' = false).
Proof.
  intros Hu Hok. split.
  - unfold ownControls, isClaimedByOther, isClaimedByCurrentUser, handleClaim.
    rewrite Hok. cbn [fst issue setIssue setIsLoading setError hasSubmittedPR].
    simpl_get. rewrite Hu. cbn [strict_eq num_strict_eq].
    rewrite Z.eqb_refl. cbn. rewrite andb_false_r.
    by repeat split.
  - unfold ownControls, isClaimedByOther, isClaimedByCurrentUser,
      handleRelease.
    cbn [negb]. rewrite Hok.
    cbn [fst issue setIssue setIsLoading setError hasSubmittedPR].
    simpl_get. by cbn.
Qed.

(** X19 on the claim and the release of the component tests. *)
Lemma controls_follow_claim_witness :
  ownControls testProps
    (handleClaim testProps (lit "2024-01-02T00:00:00.000Z")
       (Resolved mockClaimResult) (initial mockIssue)).1 = true ∧
  ownControls testProps
    (handleRelease testProps true (Resolved mockReleaseResult)
       (initial claimedIssue)).1 = false.
Proof.
  split.
  - by destruct (controls_follow_claim testProps 1
      (lit "2024-01-02T00:00:00.000Z") mockClaimResult (initial mockIssue)
      eq_refl eq_refl) as [(_ & _ & _ & H) _].
  - by destruct (controls_follow_claim testProps 1
      (lit "2024-01-02T00:00:00.000Z") mockReleaseResult
      (initial claimedIssue) eq_refl eq_refl) as [_ (_ & _ & _ & H)].
Defined.

(** X20: a successful claim whose result lacks a time stamp falls back:
    without [claimed_at] the issue gets the current time of the browser,
    without [claim_expires_at] it gets [null], so no expiry is present;
    in either case the issue is claimed by the current user. *)
Theorem handleClaim_fallbacks (p : props) (now : jsstring)
    (result : gmap string jsval) (st : state) :
  truthy (get result "success") = true ->
  let st' := (handleClaim p now (Resolved result) st).1 in
  get (issue st') "status" = JStr (lit "claimed") ∧
  get (issue st') "claimed_by" = JNum (currentUserId p) ∧
  (result !! "claimed_at" = None ->
     get (issue st') "claimed_at" = JStr now) ∧
  (result !! "claim_expires_at" = None ->
     get (issue st') "claim_expires_at" = JNull ∧
     present (get (issue st') "claim_expires_at") = false).
Proof.
  intros Hok st'. subst st'. unfold handleClaim. rewrite Hok.
  cbn [fst issue setIssue setIsLoading setError]. simpl_get.
  split; [done|]. split; [done|]. split.
  - intros Hnone. unfold get at 1. by rewrite Hnone.
  - intros Hnone. unfold get. by rewrite Hnone.
Qed.

(** X20 on a claim result with no time stamps. *)
Lemma handleClaim_fallbacks_witness :
  let st' := (handleClaim testProps (lit "2024-01-02T00:00:00.000Z")
                (Resolved bareClaimResult) (initial mockIssue)).1 in
  get (issue st') "claimed_at" = JStr (lit "2024-01-02T00:00:00.000Z") ∧
  get (issue st') "claim_expires_at" = JNull.
Proof.
  destruct (handleClaim_fallbacks testProps (lit "2024-01-02T00:00:00.000Z")
    bareClaimResult (initial mockIssue) eq_refl) as (_ & _ & H1 & H2).
  split; [by apply H1|]. by apply H2.
Defined.
